(** * Risk and feed-health guards of the Kraken trading bot

    A shallow embedding of
      - [core/loss_cluster.py]     (class [LossClusterTracker]), and
      - [monitoring/data_quality.py] (function [_timeframe_ms], classes
        [DataQualityStatus] and [DataQualityMonitor]),
    followed by the properties of the specification that concern them.

    Conventions of the embedding.
      - A Python [int] is a [Z].
      - A Python [float] is an IEEE-754 binary64 value, a [spec_float] with
        precision 53 and maximal exponent 1024; arithmetic is the correctly
        rounded arithmetic of [SpecFloat], comparisons between an [int] and a
        [float] are exact, as in CPython.
      - A [datetime] is a count of microseconds (its resolution) and a
        [timedelta] a signed count of microseconds; both are [Z].  The bounds
        of the two types (years 1 to 9999, about 10^9 days) and time zones
        are not modelled: timestamps are naive and in range.
      - A [str] is a [string]; each character stands for the code point of
        the same number (U+0000 to U+00FF).
      - Every read of a clock ([datetime.utcnow()], [time.time()]) is an
        explicit argument of the function that performs it.
      - A method that assigns to [self] returns the new object; a method
        that can raise returns a [result]. *)

From Stdlib Require Import ZArith Bool List String Ascii Lia.
From Stdlib Require Import QArith Qpower.
From Stdlib Require Import SpecFloat.
From stdpp Require Import gmap strings.

Local Open Scope Z_scope.

(* ===================================================================== *)
(** * Python values used by the two modules                               *)
(* ===================================================================== *)

Module Py.

(** The exceptions the modelled code can raise. *)
Inductive exn := IndexError | ValueError | OverflowError.

Inductive result (A : Type) :=
| Ok (a : A)
| Raise (e : exn).
Arguments Ok {A} a.
Arguments Raise {A} e.

Definition bind {A B} (r : result A) (k : A -> result B) : result B :=
  match r with
  | Ok a => k a
  | Raise e => Raise e
  end.

Definition is_ok {A} (r : result A) : bool :=
  match r with Ok _ => true | Raise _ => false end.

(** ** [float] *)

Definition float := spec_float.
Definition prec : Z := 53.
Definition emax : Z := 1024.

Definition float_mul : float -> float -> float := SFmul prec emax.
Definition float_sub : float -> float -> float := SFsub prec emax.
Definition float_div : float -> float -> float := SFdiv prec emax.

(** The nearest binary64 to an integer (ties to even), infinite when the
    integer is too large. *)
Definition float_round (z : Z) : float := binary_normalize prec emax z 0 false.

(** [float(z)] as done implicitly by [z * f] and [f - z]: OverflowError when
    the integer does not fit. *)
Definition float_of_int (z : Z) : result float :=
  match float_round z with
  | S754_infinity _ => Raise OverflowError
  | f => Ok f
  end.

(** A decimal literal [n/d]: Python reads literals correctly rounded, and
    so is the quotient of two exactly represented integers. *)
Definition float_lit (n d : Z) : float := float_div (float_round n) (float_round d).

(** [int(f)]: truncation toward zero; ValueError on NaN, OverflowError on
    an infinity. *)
Definition int_of_float (f : float) : result Z :=
  match f with
  | S754_zero _ => Ok 0
  | S754_nan => Raise ValueError
  | S754_infinity _ => Raise OverflowError
  | S754_finite s m e =>
      Ok (cond_Zopp s (if 0 <=? e then Z.pos m * 2 ^ e else Z.pos m / 2 ^ (- e)))
  end.

(** Exact comparison of an integer with a float; [None] when the float is
    NaN (every ordered comparison with NaN is false). *)
Definition int_cmp_float (z : Z) (f : float) : option comparison :=
  match f with
  | S754_nan => None
  | S754_infinity s => Some (if s then Gt else Lt)
  | S754_zero _ => Some (z ?= 0)
  | S754_finite s m e =>
      let v := cond_Zopp s (Z.pos m) in
      Some (if 0 <=? e then z ?= v * 2 ^ e else z * 2 ^ (- e) ?= v)
  end.

(** The rational a float denotes, when it is a number. *)
Definition float_value (f : float) : option Q :=
  match f with
  | S754_zero _ => Some (inject_Z 0)
  | S754_finite s m e =>
      Some (Qmult (inject_Z (cond_Zopp s (Z.pos m))) (Qpower (inject_Z 2) e))
  | S754_infinity _ | S754_nan => None
  end.

(** [z > f] *)
Definition int_gt_float (z : Z) (f : float) : bool :=
  match int_cmp_float z f with Some Gt => true | _ => false end.

(** [f >= z] *)
Definition float_ge_int (f : float) (z : Z) : bool :=
  match int_cmp_float z f with Some Lt | Some Eq => true | _ => false end.

(** [a >= b] on floats *)
Definition float_ge (a b : float) : bool := SFleb b a.

(** [z * f]: the integer is converted first. *)
Definition int_mul_float (z : Z) (f : float) : result float :=
  bind (float_of_int z) (fun x => Ok (float_mul x f)).

(** ** values a candle row may hold, and [int(v)] *)

Inductive value :=
| VInt (z : Z)
| VFloat (f : float)
| VBool (b : bool).

Definition int_of_value (v : value) : result Z :=
  match v with
  | VInt z => Ok z
  | VFloat f => int_of_float f
  | VBool b => Ok (if b then 1 else 0)
  end.

(** ** [str]: indexing from the end, and [int(s)] *)

(** [s[-1]]; [None] stands for IndexError. *)
Fixpoint str_last (s : string) : option ascii :=
  match s with
  | EmptyString => None
  | String c EmptyString => Some c
  | String _ r => str_last r
  end.

(** [s[:-1]]: a slice never raises; the empty string gives itself. *)
Fixpoint str_init (s : string) : string :=
  match s with
  | EmptyString => EmptyString
  | String _ EmptyString => EmptyString
  | String c r => String c (str_init r)
  end.

(** The characters [int] strips around a literal: tab to carriage return,
    space, and (below U+0100) NEL and the no-break space. *)
Definition is_space (c : ascii) : bool :=
  let n := Z.of_nat (nat_of_ascii c) in
  ((9 <=? n) && (n <=? 13)) || (n =? 32) || (n =? 133) || (n =? 160).

Definition digit_of (c : ascii) : option Z :=
  let n := Z.of_nat (nat_of_ascii c) in
  if (48 <=? n) && (n <=? 57) then Some (n - 48) else None.

Fixpoint lstrip (s : string) : string :=
  match s with
  | String c r => if is_space c then lstrip r else s
  | EmptyString => EmptyString
  end.

(** Reads decimal digits separated by single underscores.  [acc] is the
    value read so far and [us] tells that the previous character was an
    underscore; the result is the value and the unread rest, or [None]
    when an underscore is doubled or is the last character read. *)
Fixpoint scan_digits (s : string) (acc : Z) (us : bool) : option (Z * string) :=
  match s with
  | EmptyString => if us then None else Some (acc, s)
  | String c r =>
      match digit_of c with
      | Some d => scan_digits r (10 * acc + d) false
      | None =>
          if Ascii.eqb c "_" then (if us then None else scan_digits r acc true)
          else if us then None else Some (acc, s)
      end
  end.

Definition strip_sign (s : string) : bool * string :=
  match s with
  | String c r =>
      if Ascii.eqb c "-" then (true, r)
      else if Ascii.eqb c "+" then (false, r)
      else (false, s)
  | EmptyString => (false, s)
  end.

(** The number of digits of a literal: the decimal digits that come before
    the first character that is neither a digit nor an underscore.  Leading
    zeros count, underscores, the sign and blanks do not. *)
Fixpoint count_digits (s : string) : Z :=
  match s with
  | EmptyString => 0
  | String c r =>
      match digit_of c with
      | Some _ => 1 + count_digits r
      | None => if Ascii.eqb c "_" then count_digits r else 0
      end
  end.

(** [sys.get_int_max_str_digits()] as the interpreter starts it (CPython
    3.11, and the earlier versions that carry the same limit). *)
Definition max_str_digits : Z := 4300.

(** [int(s)] in base ten: blanks, an optional sign, digits, blanks; any
    other shape raises ValueError, and so does a literal of more than
    [max_str_digits] digits. *)
Definition int_of_str (s : string) : result Z :=
  let '(neg, body) := strip_sign (lstrip s) in
  match body with
  | EmptyString => Raise ValueError
  | String c _ =>
      match digit_of c with
      | None => Raise ValueError
      | Some _ =>
          match scan_digits body 0 false with
          | None => Raise ValueError
          | Some (v, rest) =>
              if max_str_digits <? count_digits body then Raise ValueError
              else
                match lstrip rest with
                | EmptyString => Ok (if neg then - v else v)
                | String _ _ => Raise ValueError
                end
          end
      end
  end.

(** ** [list]: indexing from the end *)

(** [l[-k]] for [k >= 1]; IndexError when the list is shorter. *)
Definition index_from_end {A} (l : list A) (k : nat) : result A :=
  match nth_error (rev l) (Nat.pred k) with
  | Some x => Ok x
  | None => Raise IndexError
  end.

(** [l[0]] *)
Definition index0 {A} (l : list A) : result A :=
  match l with
  | x :: _ => Ok x
  | [] => Raise IndexError
  end.

End Py.

Import Py.

Notation "x <- r ;; k" := (Py.bind r (fun x => k))
  (at level 100, r at next level, right associativity, only parsing).

(* ===================================================================== *)
(** * core/loss_cluster.py                                                *)
(* ===================================================================== *)

Module loss_cluster.

Definition datetime := Z.
Definition timedelta := Z.

(** [timedelta(minutes=n)] *)
Definition minutes (n : Z) : timedelta := n * 60000000.

Record LossEvent := mkLossEvent { ts : datetime; pnl : float }.

Record LossClusterTracker := mkTracker {
  window : timedelta;
  cooldown : timedelta;
  throttle_losses : Z;
  pause_losses : Z;
  _losses : list LossEvent;            (* the deque, oldest first *)
  _cooldown_until : option datetime
}.

(** [__init__] *)
Definition init (window_minutes throttle pause cooldown_minutes : Z) : LossClusterTracker :=
  {| window := minutes window_minutes;
     cooldown := minutes cooldown_minutes;
     throttle_losses := throttle;
     pause_losses := pause;
     _losses := [];
     _cooldown_until := None |}.

(** [LossClusterTracker()] with the default arguments. *)
Definition default : LossClusterTracker := init 30 2 3 20.

(** [_prune]: pops from the left while the oldest event is older than the
    window; it stops at the first event that is not. *)
Fixpoint prune_deque (w : timedelta) (now : datetime) (l : list LossEvent) : list LossEvent :=
  match l with
  | [] => []
  | e :: rest => if now - ts e >? w then prune_deque w now rest else l
  end.

Definition _prune (self : LossClusterTracker) (now : datetime) : LossClusterTracker :=
  {| window := window self;
     cooldown := cooldown self;
     throttle_losses := throttle_losses self;
     pause_losses := pause_losses self;
     _losses := prune_deque (window self) now (_losses self);
     _cooldown_until := _cooldown_until self |}.

Definition len (self : LossClusterTracker) : Z := Z.of_nat (length (_losses self)).

(** [record_loss(pnl, ts=None)].  [utcnow] is what [datetime.utcnow()]
    returns, read only when no timestamp is supplied. *)
Definition record_loss (self : LossClusterTracker) (p : float) (t : option datetime)
  (utcnow : datetime) : LossClusterTracker :=
  if float_ge_int p 0 then self
  else
    let t := match t with Some t => t | None => utcnow end in
    let self1 :=
      {| window := window self;
         cooldown := cooldown self;
         throttle_losses := throttle_losses self;
         pause_losses := pause_losses self;
         _losses := _losses self ++ [mkLossEvent t p];
         _cooldown_until := _cooldown_until self |} in
    let self2 := _prune self1 t in
    if len self2 >=? pause_losses self2 then
      {| window := window self2;
         cooldown := cooldown self2;
         throttle_losses := throttle_losses self2;
         pause_losses := pause_losses self2;
         _losses := _losses self2;
         _cooldown_until := Some (t + cooldown self2) |}
    else self2.

(** [should_pause()]; the second component is the object after the call. *)
Definition should_pause (self : LossClusterTracker) (utcnow : datetime)
  : bool * LossClusterTracker :=
  (match _cooldown_until self with
   | None => false
   | Some c => utcnow <? c
   end, self).

Definition f_0_25 : float := float_lit 25 100.
Definition f_1_0 : float := float_lit 1 1.

(** [throttle_multiplier()]; the second component is the object after the
    call. *)
Definition throttle_multiplier (self : LossClusterTracker) : float * LossClusterTracker :=
  (if len self >=? throttle_losses self then f_0_25 else f_1_0, self).

(** ** Sequences of calls *)

(** One call [record_loss(pnl, ts)] together with the clock at the call. *)
Record loss_call := mkLossCall {
  lc_pnl : float;
  lc_ts : option datetime;
  lc_utcnow : datetime
}.

(** The timestamp the call records: [ts or datetime.utcnow()]. *)
Definition stamp (c : loss_call) : datetime :=
  match lc_ts c with Some t => t | None => lc_utcnow c end.

Definition record_call (self : LossClusterTracker) (c : loss_call) : LossClusterTracker :=
  record_loss self (lc_pnl c) (lc_ts c) (lc_utcnow c).

Definition record_all (self : LossClusterTracker) (cs : list loss_call) : LossClusterTracker :=
  fold_left record_call cs self.

(** The call passes the guard [pnl >= 0] of line 37, that is, it is
    recorded. *)
Definition is_loss (c : loss_call) : Prop := float_ge_int (lc_pnl c) 0 = false.

(** The event a recorded call appends. *)
Definition event_of (c : loss_call) : LossEvent := mkLossEvent (stamp c) (lc_pnl c).

(** All the calls lie within one window of each other. *)
Definition within_window (w : timedelta) (cs : list loss_call) : Prop :=
  forall a b, In a cs -> In b cs -> stamp b - stamp a <= w.

(** The timestamps of the calls do not decrease, starting at or after [t0]. *)
Fixpoint chronological (t0 : datetime) (cs : list loss_call) : Prop :=
  match cs with
  | [] => True
  | c :: rest => t0 <= stamp c /\ chronological (stamp c) rest
  end.

(** Order on cooldown expiries: unset is before every instant. *)
Definition expiry_le (a b : option datetime) : Prop :=
  match a, b with
  | None, _ => True
  | Some _, None => False
  | Some x, Some y => x <= y
  end.

(** A float that is zero, positive or plus infinity. *)
Definition nonnegative (p : float) : Prop :=
  match p with
  | S754_zero _ => True
  | S754_infinity s => s = false
  | S754_finite s _ _ => s = false
  | S754_nan => False
  end.

(** Two trackers with the same settings. *)
Definition same_config (a b : LossClusterTracker) : Prop :=
  window a = window b /\ cooldown a = cooldown b
  /\ throttle_losses a = throttle_losses b /\ pause_losses a = pause_losses b.

(** ** Scenarios *)

(** A scenario: two losses one minute apart, and a third one a minute
    later that carries no timestamp of its own. *)
Definition first_two_losses : list loss_call :=
  [ mkLossCall (float_lit (-15) 10) (Some (minutes 0)) (minutes 0);
    mkLossCall (float_lit (-2) 1) (Some (minutes 1)) (minutes 1) ].

Definition third_loss : loss_call :=
  mkLossCall (float_lit (-1) 4) None (minutes 2).

(** A loss that closed at minute one and is reported at minute three. *)
Definition late_report : loss_call :=
  mkLossCall (float_lit (-3) 1) (Some (minutes 1)) (minutes 3).

(** A fourth loss, at minute three. *)
Definition fourth_loss : loss_call :=
  mkLossCall (float_lit (-3) 1) (Some (minutes 3)) (minutes 3).

(** A single loss of one unit at instant zero. *)
Definition lone_loss : loss_call :=
  mkLossCall (float_lit (-1) 1) (Some 0) 0.

(** A loss forty minutes after [lone_loss]. *)
Definition next_loss : loss_call :=
  mkLossCall (float_lit (-1) 1) (Some (minutes 40)) (minutes 40).

(** The timestamp of the last call of a sequence, [t0] when it is empty. *)
Definition last_stamp (t0 : datetime) (cs : list loss_call) : datetime :=
  fold_left (fun _ c => stamp c) cs t0.

End loss_cluster.

(* ===================================================================== *)
(** * monitoring/data_quality.py                                          *)
(* ===================================================================== *)

Module data_quality.

Definition _timeframe_ms (timeframe : string) : result Z :=
  match str_last timeframe with
  | None => Raise IndexError                   (* unit = timeframe[-1] *)
  | Some unit =>
      match int_of_str (str_init timeframe) with
      | Raise ValueError => Ok 300000          (* except ValueError *)
      | Raise e => Raise e
      | Ok value =>
          if Ascii.eqb unit "s" then Ok (value * 1000)
          else if Ascii.eqb unit "m" then Ok (value * 60000)
          else if Ascii.eqb unit "h" then Ok (value * 3600000)
          else if Ascii.eqb unit "d" then Ok (value * 86400000)
          else Ok 300000
      end
  end.

Record DataQualityStatus := mkStatus {
  last_ts : Z;
  gap_ms : Z;
  gap_detected : bool;
  stale : bool;
  alert : bool
}.

(** A dict literal: its items in insertion order, keys distinct. *)
Definition dict := list (string * value).

Fixpoint dict_get (d : dict) (k : string) : option value :=
  match d with
  | [] => None
  | (k', v) :: rest => if String.eqb k' k then Some v else dict_get rest k
  end.

Definition as_dict (st : DataQualityStatus) : dict :=
  [ ("last_ts"%string, VInt (last_ts st));
    ("gap_ms"%string, VInt (gap_ms st));
    ("gap"%string, VBool (gap_detected st));
    ("stale"%string, VBool (stale st));
    ("alert"%string, VBool (alert st)) ].

Record DataQualityMonitor := mkMonitor {
  enabled : bool;
  alert_interval_sec : float;
  gap_multiplier : float;
  stale_multiplier : float;
  _last_alert : gmap string float
}.

(** [__init__] *)
Definition init (en : bool) (interval gap_mult stale_mult : float) : DataQualityMonitor :=
  {| enabled := en;
     alert_interval_sec := interval;
     gap_multiplier := gap_mult;
     stale_multiplier := stale_mult;
     _last_alert := ∅ |}.

(** [DataQualityMonitor()] with the default arguments. *)
Definition default : DataQualityMonitor :=
  init true (float_lit 1800 1) (float_lit 14 10) (float_lit 2 1).

Definition set_last_alert (self : DataQualityMonitor) (key : string) (now : float)
  : DataQualityMonitor :=
  {| enabled := enabled self;
     alert_interval_sec := alert_interval_sec self;
     gap_multiplier := gap_multiplier self;
     stale_multiplier := stale_multiplier self;
     _last_alert := <[key := now]> (_last_alert self) |}.

(** [self._last_alert.get(key, 0)], as the float that [now - last] makes of
    it: the default is the integer 0. *)
Definition last_alert_of (self : DataQualityMonitor) (key : string) : float :=
  match _last_alert self !! key with
  | Some l => l
  | None => float_round 0
  end.

(** [_should_alert(key)]; [now] is what [time.time()] returns there. *)
Definition _should_alert (self : DataQualityMonitor) (key : string) (now : float)
  : bool * DataQualityMonitor :=
  if float_ge (float_sub now (last_alert_of self key)) (alert_interval_sec self)
  then (true, set_last_alert self key now)
  else (false, self).

(** The f-string [f"{symbol}:{timeframe}"]. *)
Definition key_of (symbol timeframe : string) : string :=
  (symbol ++ ":" ++ timeframe)%string.

(** Lines 71 to 78 of [evaluate]: everything computed before the alert is
    decided, in the order the code evaluates it.  [now] is what
    [time.time()] returns on line 77. *)
Definition measure (self : DataQualityMonitor) (timeframe : string)
  (ohlcv : list (list value)) (now : float) : result DataQualityStatus :=
  expected_ms <- _timeframe_ms timeframe ;;
  last_row <- index_from_end ohlcv 1 ;;
  last_v <- index0 last_row ;;
  last_ts <- int_of_value last_v ;;
  prev_row <- index_from_end ohlcv 2 ;;
  prev_v <- index0 prev_row ;;
  prev_ts <- int_of_value prev_v ;;
  let gap_ms := last_ts - prev_ts in
  gap_limit <- int_mul_float expected_ms (gap_multiplier self) ;;
  let gap_detected := int_gt_float gap_ms gap_limit in
  now_ms <- int_of_float (float_mul now (float_round 1000)) ;;
  stale_limit <- int_mul_float expected_ms (stale_multiplier self) ;;
  let stale := int_gt_float (now_ms - last_ts) stale_limit in
  Ok (mkStatus last_ts gap_ms gap_detected stale false).

(** [evaluate(symbol, timeframe, ohlcv)].  [now] is the clock read on line
    77 and [now_alert] the one [_should_alert] reads on line 60; the second
    component is the monitor after the call (an exception leaves it as it
    was: nothing is assigned before the last step). *)
Definition evaluate (self : DataQualityMonitor) (symbol timeframe : string)
  (ohlcv : list (list value)) (now now_alert : float)
  : result (option dict) * DataQualityMonitor :=
  if negb (enabled self) || (length ohlcv <? 2)%nat then (Ok None, self)
  else
    match measure self timeframe ohlcv now with
    | Raise e => (Raise e, self)
    | Ok st =>
        let '(al, self') :=
          if gap_detected st || stale st
          then _should_alert self (key_of symbol timeframe) now_alert
          else (false, self) in
        (Ok (Some (as_dict (mkStatus (last_ts st) (gap_ms st) (gap_detected st) (stale st) al))),
         self')
    end.

(** ** Outcomes *)

(** The status with its alert field set. *)
Definition with_alert (st : DataQualityStatus) (al : bool) : DataQualityStatus :=
  mkStatus (last_ts st) (gap_ms st) (gap_detected st) (stale st) al.

(** The four ways an evaluation can go. *)
Inductive outcome (self : DataQualityMonitor) (symbol timeframe : string)
  (ohlcv : list (list value)) (now now_alert : float)
  : result (option dict) * DataQualityMonitor -> Prop :=
| skipped :
    enabled self = false \/ (length ohlcv < 2)%nat ->
    outcome self symbol timeframe ohlcv now now_alert (Ok None, self)
| failed e :
    enabled self = true -> (2 <= length ohlcv)%nat ->
    measure self timeframe ohlcv now = Raise e ->
    outcome self symbol timeframe ohlcv now now_alert (Raise e, self)
| healthy st :
    enabled self = true -> (2 <= length ohlcv)%nat ->
    measure self timeframe ohlcv now = Ok st ->
    gap_detected st || stale st = false ->
    outcome self symbol timeframe ohlcv now now_alert
      (Ok (Some (as_dict (with_alert st false))), self)
| degraded st :
    enabled self = true -> (2 <= length ohlcv)%nat ->
    measure self timeframe ohlcv now = Ok st ->
    gap_detected st || stale st = true ->
    outcome self symbol timeframe ohlcv now now_alert
      (Ok (Some (as_dict
                   (with_alert st
                      (fst (_should_alert self (key_of symbol timeframe) now_alert))))),
       snd (_should_alert self (key_of symbol timeframe) now_alert)).

(** ** Sequences of calls *)

(** One call [evaluate(symbol, timeframe, ohlcv)] with the two clock reads
    it may perform. *)
Record call := mkCall {
  c_symbol : string;
  c_timeframe : string;
  c_ohlcv : list (list value);
  c_now : float;
  c_now_alert : float
}.

Definition c_key (c : call) : string := key_of (c_symbol c) (c_timeframe c).

Definition step (self : DataQualityMonitor) (c : call)
  : result (option dict) * DataQualityMonitor :=
  evaluate self (c_symbol c) (c_timeframe c) (c_ohlcv c) (c_now c) (c_now_alert c).

(** The returned dict says [alert: True]. *)
Definition alerted (r : result (option dict)) : bool :=
  match r with
  | Ok (Some d) =>
      match dict_get d "alert" with
      | Some (VBool b) => b
      | _ => false
      end
  | _ => false
  end.

(** The returned dict says that the gap or the stale condition holds. *)
Definition condition_met (r : result (option dict)) : bool :=
  match r with
  | Ok (Some d) =>
      match dict_get d "gap", dict_get d "stale" with
      | Some (VBool g), Some (VBool s) => g || s
      | _, _ => false
      end
  | _ => false
  end.

(** The monitor after a sequence of calls. *)
Definition run (self : DataQualityMonitor) (cs : list call) : DataQualityMonitor :=
  fold_left (fun m c => snd (step m c)) cs self.

(** No call of the sequence fires an alert for [key]. *)
Fixpoint quiet_for (key : string) (self : DataQualityMonitor) (cs : list call) : Prop :=
  match cs with
  | [] => True
  | c :: rest =>
      (c_key c = key -> alerted (fst (step self c)) = false)
      /\ quiet_for key (snd (step self c)) rest
  end.

(** The clock reads of the calls of a sequence that return an alert for
    [key], in order. *)
Fixpoint alert_times (key : string) (self : DataQualityMonitor) (cs : list call)
  : list float :=
  match cs with
  | [] => []
  | c :: rest =>
      if alerted (fst (step self c)) && String.eqb (c_key c) key
      then c_now_alert c :: alert_times key (snd (step self c)) rest
      else alert_times key (snd (step self c)) rest
  end.

(** Each instant of the list passes the test of line 62 against the one
    before it, the first against [prev]: [t - prev >= interval]. *)
Fixpoint spaced (interval prev : float) (ts : list float) : Prop :=
  match ts with
  | [] => True
  | t :: rest => float_ge (float_sub t prev) interval = true /\ spaced interval t rest
  end.

(** Every call of the sequence for [key] reads a clock [t] at which the
    test of line 62 against a last alert at [t0] fails: [t - t0 >= interval]
    is false. *)
Definition within_span (key : string) (t0 interval : float) (cs : list call) : Prop :=
  forall c, In c cs -> c_key c = key ->
    float_ge (float_sub (c_now_alert c) t0) interval = false.

(** Two monitors with the same settings. *)
Definition same_settings (a b : DataQualityMonitor) : Prop :=
  enabled a = enabled b
  /\ alert_interval_sec a = alert_interval_sec b
  /\ gap_multiplier a = gap_multiplier b
  /\ stale_multiplier a = stale_multiplier b.

(** ** Scenarios *)

(** Two rows [[0, ...], [100, ...]] of open, high, low, close and volume. *)
Definition candles_0_100 : list (list value) :=
  [ [VInt 0; VFloat (float_lit 1015 10); VFloat (float_lit 102 1);
     VFloat (float_lit 101 1); VFloat (float_lit 1018 10); VFloat (float_lit 25 10)];
    [VInt 100; VFloat (float_lit 1018 10); VFloat (float_lit 103 1);
     VFloat (float_lit 1017 10); VFloat (float_lit 1025 10); VFloat (float_lit 4 1)] ].

(** Two rows whose timestamps are the floats 0.5 and 100.25. *)
Definition candles_fractional : list (list value) :=
  [ [VFloat (float_lit 5 10); VFloat (float_lit 1015 10); VFloat (float_lit 102 1);
     VFloat (float_lit 101 1); VFloat (float_lit 1018 10); VFloat (float_lit 25 10)];
    [VFloat (float_lit 10025 100); VFloat (float_lit 1018 10); VFloat (float_lit 103 1);
     VFloat (float_lit 1017 10); VFloat (float_lit 1025 10); VFloat (float_lit 4 1)] ].

(** Two rows, the timestamp of the last one being NaN. *)
Definition candles_nan : list (list value) :=
  [ [VInt 0; VFloat (float_lit 1015 10); VFloat (float_lit 102 1);
     VFloat (float_lit 101 1); VFloat (float_lit 1018 10); VFloat (float_lit 25 10)];
    [VFloat S754_nan; VFloat (float_lit 1018 10); VFloat (float_lit 103 1);
     VFloat (float_lit 1017 10); VFloat (float_lit 1025 10); VFloat (float_lit 4 1)] ].

(** Clock readings: 1700000000.5 seconds, then 600 and 2000 seconds later. *)
Definition t_first : float := float_lit 17000000005 10.
Definition t_second : float := float_lit 17000006005 10.
Definition t_third : float := float_lit 17000020005 10.

(** An evaluation of the pair BTC/USD on one-minute candles at clock [t]:
    the last candle is far older than two minutes, the feed is stale. *)
Definition stale_call (t : float) : call :=
  mkCall "BTC/USD" "1m" candles_0_100 t t.

(** The timeframe "1" followed by [n] zeros and "d": 10^n days. *)
Fixpoint zeros (n : nat) : string :=
  match n with
  | O => EmptyString
  | S n => String "0" (zeros n)
  end.

Definition days_1e (n : nat) : string := String "1" (zeros n ++ "d").

(** The same evaluation for another pair. *)
Definition other_call (t : float) : call :=
  mkCall "ETH/USD" "1m" candles_0_100 t t.

End data_quality.


(* ===================================================================== *)
(** * The deque of the tracker as a history                               *)
(* ===================================================================== *)

Module loss_history.
Import loss_cluster.

(** The guard of line 37 as a boolean: the call gets past [pnl >= 0] and
    is recorded. *)
Definition recorded (c : loss_call) : bool := negb (float_ge_int (lc_pnl c) 0).

(** The events that the recorded calls of a sequence append, in order. *)
Definition events_of (cs : list loss_call) : list LossEvent :=
  map event_of (List.filter recorded cs).

(** The test of line 48 negated: at [now] the event is not older than the
    window. *)
Definition in_window (w : timedelta) (now : datetime) (e : LossEvent) : bool :=
  negb (now - ts e >? w).

(** The timestamps of the list do not decrease and none is after [t]. *)
Fixpoint ascending (t : datetime) (l : list LossEvent) : Prop :=
  match l with
  | [] => True
  | e :: rest => ts e <= t /\ (forall e', In e' rest -> ts e <= ts e') /\ ascending t rest
  end.

(** A tracker built with a window of thirty minutes whose deque holds the
    events of three losses at minutes 0, 10 and 25; then losses at minutes 35
    and 50. *)
Definition at_minute (n : Z) : loss_call :=
  mkLossCall (float_lit (-1) 1) (Some (minutes n)) (minutes n).

End loss_history.

(* ===================================================================== *)
(** * Inputs of the monitor: numerals and keys                            *)
(* ===================================================================== *)

Module monitor_inputs.
Import data_quality.

(** A decimal digit. *)
Definition is_digit (d : Z) : Prop := 0 <= d <= 9.

(** The character of the digit [d]. *)
Definition digit_char (d : Z) : ascii := ascii_of_nat (Z.to_nat (48 + d)).

(** The numeral written with the digits [ds], most significant first. *)
Fixpoint numeral (ds : list Z) : string :=
  match ds with
  | [] => EmptyString
  | d :: rest => String (digit_char d) (numeral rest)
  end.

(** The number a numeral denotes, [acc] being the value of the digits to
    its left. *)
Fixpoint numeral_value (acc : Z) (ds : list Z) : Z :=
  match ds with
  | [] => acc
  | d :: rest => numeral_value (10 * acc + d) rest
  end.

(** The milliseconds of a unit character as lines 15 to 23 decide them:
    [None] for a character that is none of s, m, h, d. *)
Definition unit_ms (unit : ascii) : option Z :=
  if Ascii.eqb unit "s" then Some 1000
  else if Ascii.eqb unit "m" then Some 60000
  else if Ascii.eqb unit "h" then Some 3600000
  else if Ascii.eqb unit "d" then Some 86400000
  else None.

(** A string that holds no colon. *)
Fixpoint colon_free (s : string) : Prop :=
  match s with
  | EmptyString => True
  | String c rest => c <> ":"%char /\ colon_free rest
  end.

(** Clock readings of 1000 and 1000.5 seconds: below the default interval
    of 1800 seconds. *)
Definition t_early : float := float_lit 1000 1.

End monitor_inputs.

(* ===================================================================== *)
(** * core/state.py and core/global_state.py                              *)
(* ===================================================================== *)

(** Objects that the code hands out by reference (the tracker kept in
    [meta], the process-wide [GlobalState]) live in a heap, and a reference
    is a location of it: two references to one object are one location, and
    an assignment through either is seen through both. *)
Module state.

Definition loc := positive.

(** A value of type [Any]: [None], a number, a string or a reference. *)
Inductive any :=
| ANone
| ANum (v : value)
| AStr (s : string)
| ARef (l : loc).

Definition f_0_0 : float := S754_zero false.     (* 0.0 *)
Definition f_1_0 : float := float_lit 1 1.       (* 1.0 *)
Definition f_m20_0 : float := float_lit (-20) 1. (* -20.0 *)

Record PositionSnapshot := mkPosition {
  p_symbol : string;
  p_size : float;
  p_entry_price : option float;
  p_realized_pnl : float;
  p_unrealized_pnl : float;
  p_meta : gmap string any
}.

Record AccountState := mkAccount {
  name : string;
  equity : float;
  balance : float;
  positions : gmap string PositionSnapshot;
  realized_pnl : float;
  unrealized_pnl : float;
  max_drawdown_pct : float;
  risk_multiplier : float;
  a_meta : gmap string any
}.

(** [AccountState(name=..., equity=..., balance=..., max_drawdown_pct=...,
    risk_multiplier=...)]: the other fields take their defaults. *)
Definition new_account (n : string) (eq bal dd rm : float) : AccountState :=
  {| name := n; equity := eq; balance := bal; positions := ∅;
     realized_pnl := f_0_0; unrealized_pnl := f_0_0;
     max_drawdown_pct := dd; risk_multiplier := rm; a_meta := ∅ |}.

Record PairSnapshot := mkPair {
  symbol : string;
  last_price : option float;
  last_signal_short : option string;
  last_signal_mid : option string;
  last_signal_long : option string;
  trend_score : float;
  vol_score : float;
  regime : string;
  liquidity_score : float;
  slippage_bps : float;
  stress_multiplier : float;
  s_meta : gmap string any
}.

Record GlobalState := mkGlobalState {
  accounts : gmap string AccountState;
  pairs : gmap string PairSnapshot;
  total_realized_pnl : float;
  total_unrealized_pnl : float;
  trading_enabled : bool;
  mode : string;
  meta : gmap string any
}.

(** [GlobalState()] *)
Definition new_state : GlobalState :=
  {| accounts := ∅; pairs := ∅;
     total_realized_pnl := f_0_0; total_unrealized_pnl := f_0_0;
     trading_enabled := true; mode := "paper"; meta := ∅ |}.

Definition set_meta (g : GlobalState) (m : gmap string any) : GlobalState :=
  {| accounts := accounts g; pairs := pairs g;
     total_realized_pnl := total_realized_pnl g;
     total_unrealized_pnl := total_unrealized_pnl g;
     trading_enabled := trading_enabled g; mode := mode g; meta := m |}.

Definition set_accounts (g : GlobalState) (a : gmap string AccountState) : GlobalState :=
  {| accounts := a; pairs := pairs g;
     total_realized_pnl := total_realized_pnl g;
     total_unrealized_pnl := total_unrealized_pnl g;
     trading_enabled := trading_enabled g; mode := mode g; meta := meta g |}.

(** The objects of the heap. *)
Inductive object :=
| OTracker (t : loss_cluster.LossClusterTracker)
| OState (g : GlobalState).

Abbreviation heap := (gmap loc object).

(** A constructor call: the new object sits at a location that held
    nothing. *)
Definition alloc (h : heap) (o : object) : loc * heap :=
  let l := fresh (dom h) in (l, <[l := o]> h).

(** [GlobalState.loss_cluster(self)], [self] being a reference.  [None]
    when [self] does not refer to a [GlobalState], which is no call of this
    method. *)
Definition loss_cluster (self : loc) (h : heap) : option (any * heap) :=
  match h !! self with
  | Some (OState g) =>
      match meta g !! "loss_cluster"%string with
      | None | Some ANone =>                     (* lc is None *)
          let '(l, h1) := alloc h (OTracker loss_cluster.default) in
          Some (ARef l,
                <[self := OState (set_meta g (<["loss_cluster"%string := ARef l]> (meta g)))]> h1)
      | Some lc => Some (lc, h)
      end
  | _ => None
  end.

(** A call [lc.record_loss(pnl, ts)] on what [loss_cluster()] returned.
    [None] when [lc] is no reference to a tracker. *)
Definition call_record_loss (lc : any) (p : float) (t : option loss_cluster.datetime)
  (utcnow : loss_cluster.datetime) (h : heap) : option heap :=
  match lc with
  | ARef l =>
      match h !! l with
      | Some (OTracker tr) =>
          Some (<[l := OTracker (loss_cluster.record_loss tr p t utcnow)]> h)
      | _ => None
      end
  | _ => None
  end.

End state.

Module global_state.
Import state.

(** The interpreter's memory as far as these modules go: the heap and the
    module variable [_state]. *)
Record world := mkWorld {
  objects : heap;
  _state : option loc
}.

(** The memory when the module has just been imported. *)
Definition start : world := {| objects := ∅; _state := None |}.

Definition get_global_state (w : world) : loc * world :=
  match _state w with
  | None =>
      let '(l, h1) := alloc (objects w) (OState new_state) in
      (l, {| objects := h1; _state := Some l |})
  | Some l => (l, w)
  end.

(** The module variable, when set, refers to a [GlobalState]. *)
Definition well_formed (w : world) : Prop :=
  match _state w with
  | None => True
  | Some l => exists g, objects w !! l = Some (OState g)
  end.

End global_state.

(* ===================================================================== *)
(** * core/app.py: the checks made before the bot starts                  *)
(* ===================================================================== *)

Module app.
Import state.

(** The exceptions of this module, with their messages.  [OSError] stands
    for the error of the operating system that [Path.exists] lets through,
    PermissionError for one. *)
Inductive raised :=
| FileNotFoundError (msg : string)
| RuntimeError (msg : string)
| OSError (msg : string).

(** What a call of a function without result does: it returns or raises. *)
Inductive outcome :=
| Returns
| Raises (e : raised).

(** [sep.join(l)] *)
Fixpoint join (sep : string) (l : list string) : string :=
  match l with
  | [] => EmptyString
  | [x] => x
  | x :: rest => (x ++ sep ++ join sep rest)%string
  end.

(** [sorted(l)] on strings: by code points, equal strings in their order. *)
Fixpoint insert_sorted (x : string) (l : list string) : list string :=
  match l with
  | [] => [x]
  | y :: rest => if String.leb x y then x :: l else y :: insert_sorted x rest
  end.

Definition sorted (l : list string) : list string := fold_right insert_sorted [] l.

(** What [Path(p).exists()] does.  It answers [True] or [False]; [stat]
    failing because the file or a directory of the path is not there is the
    answer [False].  Any other failure of [stat] is raised: PermissionError
    when a directory of the path may not be searched, for one. *)
Inductive probe :=
| Answers (b : bool)
| Fails (msg : string).

(** What the list comprehension of line 22 comes to: the list of the paths
    that are missing, or the error that ended it. *)
Inductive probe_result :=
| Listed (missing : list string)
| Failed (msg : string).

(** The list comprehension of line 22: the paths are probed in their order,
    and the first probe that fails ends it. *)
Fixpoint missing_files (exists_ : string -> probe) (paths : list string)
  : probe_result :=
  match paths with
  | [] => Listed []
  | p :: rest =>
      match exists_ p with
      | Fails msg => Failed msg
      | Answers b =>
          match missing_files exists_ rest with
          | Failed msg => Failed msg
          | Listed l => Listed (if b then l else p :: l)
          end
      end
  end.

(** [_require_files(paths)].  [exists_ p] is what [Path(p).exists()] does:
    the state of the file system, taken not to change during the call. *)
Definition _require_files (exists_ : string -> probe) (paths : list string) : outcome :=
  match missing_files exists_ paths with
  | Failed msg => Raises (OSError msg)
  | Listed [] => Returns
  | Listed (m :: ms) =>
      Raises (FileNotFoundError
                ("Missing required config files: " ++ join ", " (m :: ms))%string)
  end.

(** The path is not there; the path cannot be probed. *)
Definition absent (exists_ : string -> probe) (p : string) : bool :=
  match exists_ p with Answers false => true | _ => false end.

Definition unreadable (exists_ : string -> probe) (p : string) : bool :=
  match exists_ p with Fails _ => true | _ => false end.

(** A file system in which the files of the directory config whose names
    start with p are there and no other. *)
Definition only_p_files (p : string) : probe := Answers (String.prefix "config/p" p).

(** The same file system with a directory secrets that the process may
    not search: a path into it cannot be probed. *)
Definition closed_secrets (p : string) : probe :=
  if String.prefix "secrets/" p then Fails "Permission denied" else only_p_files p.

(** The files [main] requires. *)
Definition required_files : list string :=
  [ "config/accounts.yaml"; "config/policies.yaml"; "config/agents.yaml";
    "config/pairs.yaml" ]%string.

(** The environment: [os.getenv(k)] is [env !! k]. *)
Abbreviation environ := (gmap string string).

(** [not os.getenv(k)]: the variable is unset or empty. *)
Definition unset (env : environ) (k : string) : bool :=
  match env !! k with
  | None => true
  | Some v => String.eqb v EmptyString
  end.

Definition required : list string :=
  [ "KRAKEN_API_KEY"; "KRAKEN_API_SECRET"; "BINANCE_API_KEY"; "BINANCE_API_SECRET";
    "COINBASE_API_KEY"; "COINBASE_API_SECRET"; "COINBASE_API_PASSPHRASE" ]%string.

(** [os.getenv("I_UNDERSTAND_LIVE_TRADING") != "1"] *)
Definition unacknowledged (env : environ) : bool :=
  match env !! "I_UNDERSTAND_LIVE_TRADING"%string with
  | Some v => negb (String.eqb v "1")
  | None => true
  end.

Definition missing_message : string :=
  "Live mode requested but these env vars are missing: ".

Definition acknowledge_message : string :=
  "Set I_UNDERSTAND_LIVE_TRADING=1 to acknowledge live-trading risk before starting in live mode.".

Definition _validate_live_env (env : environ) (mode : string) : outcome :=
  if negb (String.eqb mode "live") then Returns
  else
    let missing := List.filter (unset env) required in
    match missing with
    | _ :: _ => Raises (RuntimeError (missing_message ++ join ", " (sorted missing))%string)
    | [] =>
        if unacknowledged env then Raises (RuntimeError acknowledge_message)
        else Returns
    end.

(** The required names in the order of their code points. *)
Definition required_in_order : list string :=
  [ "BINANCE_API_KEY"; "BINANCE_API_SECRET"; "COINBASE_API_KEY";
    "COINBASE_API_PASSPHRASE"; "COINBASE_API_SECRET"; "KRAKEN_API_KEY";
    "KRAKEN_API_SECRET" ]%string.

(** ** Lines 64 to 76 of [main]: accounts from the configuration *)

(** [float(v)] for a number of the configuration. *)
Definition float_of_value (v : value) : result float :=
  match v with
  | VInt z => float_of_int z
  | VFloat f => Ok f
  | VBool b => Ok (if b then f_1_0 else f_0_0)
  end.

(** [float(cfg.get(key, default))] *)
Definition get_float (cfg : gmap string value) (key : string) (default : float)
  : result float :=
  match cfg !! key with
  | Some v => float_of_value v
  | None => Ok default
  end.

(** The body of the loop: the four numbers are read first, the account is
    built, and [setdefault] stores it only when the name has no entry. *)
Definition load_account (accts : gmap string AccountState) (n : string)
  (cfg : gmap string value) : result (gmap string AccountState) :=
  eq <- get_float cfg "equity" f_0_0 ;;
  bal <- get_float cfg "balance" eq ;;
  dd <- get_float cfg "max_drawdown_pct" f_m20_0 ;;
  rm <- get_float cfg "risk_multiplier" f_1_0 ;;
  Ok (match accts !! n with
      | Some _ => accts
      | None => <[n := new_account n eq bal dd rm]> accts
      end).

(** The loop over [accounts_cfg.items()], the items in their order.  The
    second component is [state.accounts] when the loop ends or raises. *)
Fixpoint load_accounts (accts : gmap string AccountState)
  (items : list (string * gmap string value))
  : result unit * gmap string AccountState :=
  match items with
  | [] => (Ok tt, accts)
  | (n, cfg) :: rest =>
      match load_account accts n cfg with
      | Ok accts' => load_accounts accts' rest
      | Raise e => (Raise e, accts)
      end
  end.

(** A state that holds the account "main" with an equity of 500, and a
    configuration that names "main" with an equity of 1000 and "alt" with an
    equity of 250 and nothing else. *)
Definition held_accounts : gmap string AccountState :=
  {[ "main"%string := new_account "main" (float_lit 500 1) (float_lit 500 1) f_m20_0 f_1_0 ]}.

Definition configured_accounts : list (string * gmap string value) :=
  [ ("main"%string, {[ "equity"%string := VInt 1000 ]});
    ("alt"%string, {[ "equity"%string := VInt 250 ]}) ].

(** An environment with every credential and the acknowledgement. *)
Definition live_environ : environ :=
  list_to_map (("I_UNDERSTAND_LIVE_TRADING"%string, "1"%string)
               :: map (fun k => (k, "secret"%string)) required).

End app.

(* ===================================================================== *)
(** * The embedding of Python's numbers and strings                       *)
(* ===================================================================== *)

Section PythonFacts.

(** ** Comparisons between an integer and a float are exact *)

Lemma Qcompare_inject_Z (a b : Z) : Qcompare (inject_Z a) (inject_Z b) = (a ?= b).
Proof. unfold Qcompare. cbn. now rewrite !Z.mul_1_r. Qed.

Lemma int_cmp_float_exact (z : Z) (f : float) (q : Q) :
  float_value f = Some q -> int_cmp_float z f = Some (Qcompare (inject_Z z) q).
Proof.
  destruct f as [s | s | | s m e]; cbn [float_value]; intros [= <-]; cbn [int_cmp_float].
  - now rewrite Qcompare_inject_Z.
  - f_equal. set (v := cond_Zopp s (Z.pos m)).
    destruct (0 <=? e) eqn:He.
    + apply Z.leb_le in He.
      rewrite <- (Zpower_Qpower 2 e He), <- inject_Z_mult.
      now rewrite Qcompare_inject_Z.
    + apply Z.leb_gt in He.
      assert (Hk : 0 < 2 ^ (- e)) by (apply Z.pow_pos_nonneg; lia).
      destruct (2 ^ (- e)) as [| d | d] eqn:Ed; try lia.
      assert (Hq : Qeq (Qmult (inject_Z v) (Qpower (inject_Z 2) e)) (Qmake v d)).
      { replace e with (- (- e)) by lia.
        rewrite Qpower_opp, <- (Zpower_Qpower 2 (- e)) by lia.
        rewrite Ed. unfold Qeq, Qmult, Qinv, inject_Z. cbn. lia. }
      rewrite Hq. unfold Qcompare. cbn. now rewrite Z.mul_1_r.
Qed.

(** [z > f] holds exactly when the rational [f] denotes is below [z]. *)
Lemma int_gt_float_exact (z : Z) (f : float) (q : Q) :
  float_value f = Some q -> int_gt_float z f = true <-> Qlt q (inject_Z z).
Proof.
  intros H. unfold int_gt_float. rewrite (int_cmp_float_exact z f q H).
  rewrite Qgt_alt. destruct (Qcompare (inject_Z z) q); easy.
Qed.

(** [f >= z] holds exactly when the rational [f] denotes is at least [z]. *)
Lemma float_ge_int_exact (f : float) (z : Z) (q : Q) :
  float_value f = Some q -> float_ge_int f z = true <-> Qle (inject_Z z) q.
Proof.
  intros H. unfold float_ge_int. rewrite (int_cmp_float_exact z f q H).
  rewrite Qle_alt. destruct (Qcompare (inject_Z z) q); easy.
Qed.

(** ** Values checked against the interpreter *)

(** [(1.4).hex()] is [0x1.6666666666666p+0] and [(0.25).hex()] is
    [0x1.0000000000000p-2]. *)
Example literal_1_4 : float_lit 14 10 = S754_finite false 6305039478318694 (-52).
Proof. vm_compute. reflexivity. Qed.

Example literal_0_25 : float_lit 25 100 = S754_finite false 4503599627370496 (-54).
Proof. vm_compute. reflexivity. Qed.

(** [60000 * 1.4 == 84000.0], so [84000 > 60000 * 1.4] is [False]. *)
Example product_60000_1_4 :
  int_mul_float 60000 (float_lit 14 10) = Ok (float_round 84000)
  /\ int_gt_float 84000 (float_round 84000) = false
  /\ int_gt_float 84001 (float_round 84000) = true.
Proof. repeat split; vm_compute; reflexivity. Qed.

(** [float(2**1024 - 2**970 - 1)] is the largest float; one more raises
    OverflowError, as does [10**400 * 1.4]. *)
Example float_of_int_range :
  float_of_int (2 ^ 1024 - 2 ^ 970 - 1) = Ok (S754_finite false 9007199254740991 971)
  /\ float_of_int (2 ^ 1024 - 2 ^ 970) = Raise OverflowError
  /\ int_mul_float (10 ^ 400) (float_lit 14 10) = Raise OverflowError.
Proof. repeat split; vm_compute; reflexivity. Qed.

(** [int(-2.7) == -2], [int(1700000000.5 * 1000) == 1700000000500];
    [int(nan)] raises ValueError and [int(inf)] OverflowError. *)
Example int_of_float_values :
  int_of_float (float_lit (-27) 10) = Ok (-2)
  /\ int_of_float (float_mul (float_lit 17000000005 10) (float_round 1000))
     = Ok 1700000000500
  /\ int_of_float S754_nan = Raise ValueError
  /\ int_of_float (S754_infinity false) = Raise OverflowError.
Proof. repeat split; vm_compute; reflexivity. Qed.

(** [nan >= 0] is [False], [-0.0 >= 0] is [True]. *)
Example float_ge_int_values :
  float_ge_int S754_nan 0 = false /\ float_ge_int (S754_zero true) 0 = true.
Proof. split; reflexivity. Qed.

(** [int] on strings: blanks and one sign, single underscores between
    digits, leading zeros; anything else is a ValueError. *)
Example int_of_str_values :
  int_of_str " 5 " = Ok 5
  /\ int_of_str "-5" = Ok (-5)
  /\ int_of_str "+5" = Ok 5
  /\ int_of_str "1_0" = Ok 10
  /\ int_of_str "007" = Ok 7
  /\ int_of_str "" = Raise ValueError
  /\ int_of_str "+" = Raise ValueError
  /\ int_of_str "+ 5" = Raise ValueError
  /\ int_of_str "_1" = Raise ValueError
  /\ int_of_str "1_" = Raise ValueError
  /\ int_of_str "1__0" = Raise ValueError
  /\ int_of_str "1 0" = Raise ValueError
  /\ int_of_str "5.0" = Raise ValueError
  /\ int_of_str "0x10" = Raise ValueError
  /\ int_of_str "bogu" = Raise ValueError.
Proof. repeat split; vm_compute; reflexivity. Qed.

(** [int] on long literals: 4300 digits are read, leading zeros included,
    4301 are a ValueError; the sign is no digit. *)
Example int_of_str_digit_limit :
  int_of_str (data_quality.zeros 4300) = Ok 0
  /\ int_of_str (data_quality.zeros 4301) = Raise ValueError
  /\ int_of_str (String "-" (String "1" (data_quality.zeros 4299))) = Ok (- 10 ^ 4299)
  /\ int_of_str (String "1" (data_quality.zeros 4300)) = Raise ValueError.
Proof. split; [| split; [| split]]; vm_compute; reflexivity. Qed.

End PythonFacts.

(* ===================================================================== *)
(** * Properties of the clustered-loss tracker                            *)
(* ===================================================================== *)

Section TrackerFacts.
Import loss_cluster.

(** ** The guard [pnl >= 0] *)

Lemma cmp_zero_finite (s : bool) (m : positive) (e : Z) :
  int_cmp_float 0 (S754_finite s m e) = Some (if s then Gt else Lt).
Proof.
  unfold int_cmp_float, cond_Zopp. f_equal.
  destruct (0 <=? e) eqn:He.
  - apply Z.leb_le in He.
    assert (0 < 2 ^ e) by now apply Z.pow_pos_nonneg.
    destruct s; [apply Z.compare_gt_iff | apply Z.compare_lt_iff]; nia.
  - destruct s; [apply Z.compare_gt_iff | apply Z.compare_lt_iff]; lia.
Qed.

(** [pnl >= 0] holds exactly of the floats that are zero, positive or plus
    infinity; it is false of NaN. *)
Lemma ge_zero_iff_nonnegative (p : float) : float_ge_int p 0 = true <-> nonnegative p.
Proof.
  unfold float_ge_int. destruct p as [s | s | | s m e].
  - cbn. easy.
  - cbn. destruct s; easy.
  - cbn. easy.
  - rewrite cmp_zero_finite. cbn. destruct s; easy.
Qed.

(** ** Settings are never assigned after [__init__] *)

Lemma record_loss_config self p t u : same_config (record_loss self p t u) self.
Proof.
  unfold record_loss, same_config.
  destruct (float_ge_int p 0); [easy |].
  cbn. destruct (_ >=? _); cbn; easy.
Qed.

Lemma record_all_snoc self cs c :
  record_all self (cs ++ [c]) = record_call (record_all self cs) c.
Proof. unfold record_all. now rewrite fold_left_app. Qed.

Lemma record_all_config self cs : same_config (record_all self cs) self.
Proof.
  induction cs as [| c cs IH] using rev_ind.
  - unfold same_config. easy.
  - rewrite record_all_snoc. unfold record_call.
    pose proof (record_loss_config (record_all self cs) (lc_pnl c) (lc_ts c) (lc_utcnow c)) as H.
    unfold same_config in *. intuition congruence.
Qed.

(** ** What a recorded loss does *)

Lemma record_call_losses self c :
  is_loss c ->
  _losses (record_call self c)
  = prune_deque (window self) (stamp c) (_losses self ++ [event_of c]).
Proof.
  unfold is_loss, record_call, record_loss. intros ->.
  fold (stamp c). cbn. destruct (_ >=? _); reflexivity.
Qed.

Lemma record_call_expiry self c :
  is_loss c ->
  _cooldown_until (record_call self c)
  = if len (record_call self c) >=? pause_losses self
    then Some (stamp c + cooldown self)
    else _cooldown_until self.
Proof.
  unfold is_loss, record_call, record_loss, len. intros ->.
  fold (stamp c). cbn.
  destruct (_ >=? _) eqn:E; cbn; rewrite E; reflexivity.
Qed.

Lemma record_call_ignored self c : ~ is_loss c -> record_call self c = self.
Proof.
  unfold is_loss, record_call, record_loss.
  destruct (float_ge_int (lc_pnl c) 0); [reflexivity | easy].
Qed.

(** ** Pruning *)

Section Prune.
Variable w : timedelta.
Variable now : datetime.

(** Pruning removes a prefix. *)
Lemma prune_deque_suffix l : exists gone, l = gone ++ prune_deque w now l.
Proof.
  induction l as [| e l [gone IH]]; cbn.
  - now exists [].
  - destruct (now - ts e >? w).
    + exists (e :: gone). cbn. now f_equal.
    + now exists [].
Qed.

(** Pruning stops in front of events that are within the window. *)
Lemma prune_deque_keeps old new :
  (forall e, In e new -> now - ts e <= w) ->
  exists old', prune_deque w now (old ++ new) = old' ++ new.
Proof.
  intros Hnew. induction old as [| e old [old' IH]]; cbn.
  - exists []. destruct new as [| e new]; [reflexivity |]. cbn.
    assert (now - ts e <= w) as He by (apply Hnew; now left).
    destruct (now - ts e >? w) eqn:E; [| reflexivity].
    apply Z.gtb_lt in E. lia.
  - destruct (now - ts e >? w).
    + now exists old'.
    + now exists (e :: old).
Qed.

End Prune.

(** A run of losses that lie within one window of each other is retained
    whole, whatever the tracker held before. *)
Lemma record_all_retains self cs :
  Forall is_loss cs ->
  within_window (window self) cs ->
  exists old, _losses (record_all self cs) = old ++ map event_of cs.
Proof.
  induction cs as [| c cs IH] using rev_ind; intros Hloss Hwin.
  - exists (_losses self). cbn. now rewrite app_nil_r.
  - apply Forall_app in Hloss as [Hcs Hc]. inversion Hc as [| ? ? Hc' _]; subst.
    destruct IH as [old IH]; [assumption | |].
    { intros a b Ha Hb. apply Hwin; apply in_or_app; now left. }
    rewrite record_all_snoc, record_call_losses by assumption.
    destruct (record_all_config self cs) as (-> & _).
    rewrite IH, <- app_assoc.
    replace (map event_of cs ++ [event_of c]) with (map event_of (cs ++ [c]))
      by (now rewrite map_app).
    apply prune_deque_keeps.
    intros e He. apply in_map_iff in He as (a & <- & Ha). cbn.
    apply Hwin; [assumption | apply in_or_app; right; now left].
Qed.

(** ** Pause *)

Lemma should_pause_value self now :
  should_pause self now
  = (match _cooldown_until self with Some c => now <? c | None => false end, self).
Proof. reflexivity. Qed.

(** C1. Whatever the tracker went through before, when a recorded loss
    brings the number of retained losses to [pause_losses] or more,
    [record_loss] sets the cooldown expiry to that loss's timestamp plus the
    cooldown, so that [should_pause()] answers true at every instant strictly
    before that expiry and false from it on, changing nothing.  Losses that
    lie within one window of each other are all retained, so a run of
    [pause_losses] of them reaches the threshold.  A tracker whose expiry was
    never set answers false. *)
Theorem C1_cluster_arms_cooldown (self : LossClusterTracker) (cs : list loss_call)
  (c : loss_call) :
  is_loss c ->
  let self' := record_all self (cs ++ [c]) in
  (pause_losses self <= len self' ->
     _cooldown_until self' = Some (stamp c + cooldown self)
     /\ forall now, should_pause self' now = (now <? stamp c + cooldown self, self'))
  /\ (Forall is_loss cs -> within_window (window self) (cs ++ [c]) ->
      Z.of_nat (length (cs ++ [c])) <= len self')
  /\ (forall s now, _cooldown_until s = None -> should_pause s now = (false, s)).
Proof.
  intros Hc self'. repeat split.
  - pose proof (record_call_expiry (record_all self cs) c Hc) as E.
    rewrite <- record_all_snoc in E. fold self' in E.
    destruct (record_all_config self cs) as (_ & Hcd & _ & Hp).
    rewrite Hp, Hcd in E.
    apply Z.geb_le in H. rewrite H in E. exact E.
  - intros now. rewrite should_pause_value.
    pose proof (record_call_expiry (record_all self cs) c Hc) as E.
    rewrite <- record_all_snoc in E. fold self' in E.
    destruct (record_all_config self cs) as (_ & Hcd & _ & Hp).
    rewrite Hp, Hcd in E.
    apply Z.geb_le in H. rewrite H in E. now rewrite E.
  - intros Hcs Hwin.
    destruct (record_all_retains self (cs ++ [c])) as [old E].
    + apply Forall_app. split; [assumption | now constructor].
    + assumption.
    + unfold len, self'. rewrite E, !length_app, length_map, length_app. lia.
  - intros s now E. rewrite should_pause_value. now rewrite E.
Qed.

(** Three losses one minute apart on a default tracker: the third arms a
    cooldown of twenty minutes from its own timestamp. *)
Lemma C1_witness :
  is_loss third_loss
  /\ pause_losses default <= len (record_all default (first_two_losses ++ [third_loss]))
  /\ _cooldown_until (record_all default (first_two_losses ++ [third_loss])) = Some (minutes 22)
  /\ fst (should_pause (record_all default (first_two_losses ++ [third_loss])) (minutes 22 - 1)) = true
  /\ fst (should_pause (record_all default (first_two_losses ++ [third_loss])) (minutes 22)) = false.
Proof.
  assert (L : is_loss third_loss) by (vm_compute; reflexivity).
  assert (P : pause_losses default
              <= len (record_all default (first_two_losses ++ [third_loss])))
    by (vm_compute; discriminate).
  destruct (C1_cluster_arms_cooldown default first_two_losses third_loss L) as (A & _ & _).
  destruct (A P) as (E & S).
  split; [exact L |]. split; [exact P |].
  split; [rewrite E; vm_compute; reflexivity |].
  split; rewrite S; vm_compute; reflexivity.
Defined.

(** ** Throttle *)

(** C8. [throttle_multiplier()] returns 0.25 (the float 2^52 * 2^-54) as soon
    as the number of retained losses is at or above [throttle_losses], the
    threshold included and whatever [pause_losses] is; it returns 1.0 for every
    smaller count; and it leaves the tracker as it was. *)
Theorem C8_throttle_multiplier (self : LossClusterTracker) :
  (throttle_losses self <= len self -> fst (throttle_multiplier self) = f_0_25)
  /\ (len self < throttle_losses self -> fst (throttle_multiplier self) = f_1_0)
  /\ snd (throttle_multiplier self) = self
  /\ f_0_25 = S754_finite false (2 ^ 52) (-54)
  /\ f_1_0 = S754_finite false (2 ^ 52) (-52).
Proof.
  unfold throttle_multiplier. cbn [fst snd]. repeat split.
  - intros H. apply Z.geb_le in H. now rewrite H.
  - intros H. destruct (len self >=? throttle_losses self) eqn:E; [| reflexivity].
    apply Z.geb_le in E. lia.
Qed.

(** On a default tracker two retained losses (the throttle threshold, below
    the pause threshold) give 0.25, one gives 1.0. *)
Lemma C8_witness :
  fst (throttle_multiplier (record_all default first_two_losses)) = f_0_25
  /\ fst (throttle_multiplier (record_all default [lone_loss])) = f_1_0.
Proof.
  split.
  - apply (proj1 (C8_throttle_multiplier (record_all default first_two_losses))).
    vm_compute. discriminate.
  - apply (proj1 (proj2 (C8_throttle_multiplier (record_all default [lone_loss])))).
    vm_compute. reflexivity.
Defined.

(** ** Non-losses *)

(** C9. A call [record_loss(pnl, ts)] whose [pnl] is zero or positive returns
    at once: the tracker after the call is the tracker before it, events,
    expiry and settings alike, with or without a timestamp. *)
Theorem C9_nonnegative_pnl_is_ignored (self : LossClusterTracker) (p : float)
  (t : option datetime) (utcnow : datetime) :
  nonnegative p -> record_loss self p t utcnow = self.
Proof.
  intros H. apply ge_zero_iff_nonnegative in H.
  unfold record_loss. now rewrite H.
Qed.

(** [pnl = +5.0] and [pnl = 0] on a tracker that already holds losses. *)
Lemma C9_witness :
  nonnegative (float_lit 5 1)
  /\ record_loss (record_all default first_two_losses) (float_lit 5 1) None (minutes 9)
     = record_all default first_two_losses
  /\ record_loss (record_all default first_two_losses) (float_round 0) (Some (minutes 9)) 0
     = record_all default first_two_losses.
Proof.
  assert (N : nonnegative (float_lit 5 1)) by (vm_compute; reflexivity).
  split; [exact N |]. split.
  - apply (C9_nonnegative_pnl_is_ignored _ (float_lit 5 1) None (minutes 9)). exact N.
  - apply (C9_nonnegative_pnl_is_ignored _ (float_round 0) (Some (minutes 9)) 0). exact I.
Defined.

(** ** A loss and then nothing *)

(** C3, as stated, fails: one loss on a default tracker, then the clock
    thirty-one minutes later with nothing recorded in between.  The event is
    still in the deque. *)
Lemma C3_counterexample :
  let s := record_call default lone_loss in
  let later := stamp lone_loss + window default + minutes 1 in
  ~ (len s = 0
     /\ fst (should_pause s later) = false
     /\ fst (throttle_multiplier s) = f_1_0).
Proof. intros s later (H & _). vm_compute in H. discriminate. Qed.

(** C3, amended.  On a tracker just built with a window that is not negative
    and both thresholds above one, a single recorded loss stays in the deque
    whatever the clock does ([should_pause] and [throttle_multiplier] do not
    prune); [should_pause()] is false and [throttle_multiplier()] is 1.0 at
    every later instant; and the event leaves only when the next loss is
    recorded more than a window later. *)
Theorem C3_lone_loss_until_next_record (wm th pl cm : Z) (c : loss_call) (now : datetime) :
  0 <= wm -> 1 < th -> 1 < pl -> is_loss c ->
  let s := record_call (init wm th pl cm) c in
  _losses s = [event_of c]
  /\ should_pause s now = (false, s)
  /\ throttle_multiplier s = (f_1_0, s)
  /\ (forall c', is_loss c' -> window s < stamp c' - stamp c ->
      _losses (record_call s c') = [event_of c']).
Proof.
  intros Hw Hth Hpl Hc s.
  assert (W : 0 <= window (init wm th pl cm)) by (cbn; unfold minutes; lia).
  assert (L : _losses s = [event_of c]).
  { unfold s. rewrite record_call_losses by assumption. cbn.
    replace (stamp c - stamp c) with 0 by lia.
    destruct (0 >? minutes wm) eqn:E; [| reflexivity].
    apply Z.gtb_lt in E. cbn in W. lia. }
  assert (U : _cooldown_until s = None).
  { unfold s. rewrite record_call_expiry by assumption.
    fold s. unfold len. rewrite L. cbn [length pause_losses init _cooldown_until].
    destruct (Z.of_nat 1 >=? pl) eqn:E; [| reflexivity]. apply Z.geb_le in E. lia. }
  assert (K : same_config s (init wm th pl cm)) by apply record_loss_config.
  destruct K as (Kw & _ & Kt & _).
  repeat split.
  - exact L.
  - rewrite should_pause_value. now rewrite U.
  - unfold throttle_multiplier, len. rewrite L, Kt. cbn [length throttle_losses init].
    destruct (Z.of_nat 1 >=? th) eqn:E; [| reflexivity]. apply Z.geb_le in E. lia.
  - intros c' Hc' Hlate. rewrite record_call_losses by assumption.
    rewrite L. cbn.
    destruct (stamp c' - stamp c >? window s) eqn:E.
    + replace (stamp c' - stamp c') with 0 by lia.
      destruct (0 >? window s) eqn:E'; [| reflexivity].
      apply Z.gtb_lt in E'. rewrite Kw in E'. lia.
    + assert (H : stamp c' - stamp c > window s) by lia.
      apply Z.gtb_gt in H. congruence.
Qed.

(** The default tracker, one loss, the clock thirty-one minutes later, and a
    second loss forty minutes after the first. *)
Lemma C3_witness :
  is_loss lone_loss
  /\ len (record_call default lone_loss) = 1
  /\ fst (should_pause (record_call default lone_loss) (minutes 31)) = false
  /\ fst (throttle_multiplier (record_call default lone_loss)) = f_1_0
  /\ _losses (record_call (record_call default lone_loss) next_loss) = [event_of next_loss].
Proof.
  assert (L : is_loss lone_loss) by (vm_compute; reflexivity).
  unfold default.
  destruct (C3_lone_loss_until_next_record 30 2 3 20 lone_loss (minutes 31))
    as (E & P & T & N); [lia | lia | lia | exact L |].
  split; [exact L |]. split; [unfold len; now rewrite E |].
  split; [now rewrite P |]. split; [now rewrite T |].
  apply N; [vm_compute; reflexivity | vm_compute; reflexivity].
Defined.

(** ** The cooldown expiry over a sequence of calls *)

Lemma expiry_le_refl a : expiry_le a a.
Proof. destruct a; cbn; [lia | exact I]. Qed.

Lemma expiry_le_trans a b c : expiry_le a b -> expiry_le b c -> expiry_le a c.
Proof. destruct a, b, c; cbn; try easy; lia. Qed.

Lemma is_loss_dec (c : loss_call) : {is_loss c} + {~ is_loss c}.
Proof.
  unfold is_loss. destruct (float_ge_int (lc_pnl c) 0); [right | left]; easy.
Qed.

(** No call clears an expiry that is set. *)
Lemma record_call_keeps_expiry self c x :
  _cooldown_until self = Some x -> exists y, _cooldown_until (record_call self c) = Some y.
Proof.
  intros E. destruct (is_loss_dec c) as [Hc | Hc].
  - rewrite record_call_expiry by assumption.
    destruct (_ >=? _); [eexists; reflexivity | now exists x].
  - rewrite record_call_ignored by assumption. now exists x.
Qed.

Lemma record_all_keeps_expiry cs : forall self x,
  _cooldown_until self = Some x -> exists y, _cooldown_until (record_all self cs) = Some y.
Proof.
  induction cs as [| c cs IH]; intros self x E.
  - now exists x.
  - destruct (record_call_keeps_expiry self c x E) as [y Ey].
    exact (IH (record_call self c) y Ey).
Qed.

(** One call whose timestamp is not before [t0], on a tracker whose expiry is
    not after [t0 + cooldown]. *)
Lemma record_call_expiry_forward self c t0 :
  expiry_le (_cooldown_until self) (Some (t0 + cooldown self)) ->
  t0 <= stamp c ->
  expiry_le (_cooldown_until self) (_cooldown_until (record_call self c))
  /\ expiry_le (_cooldown_until (record_call self c)) (Some (stamp c + cooldown self)).
Proof.
  intros Hinv Ht.
  assert (Hup : expiry_le (_cooldown_until self) (Some (stamp c + cooldown self))).
  { eapply expiry_le_trans; [exact Hinv |]. cbn. lia. }
  destruct (is_loss_dec c) as [Hc | Hc].
  - rewrite record_call_expiry by assumption.
    destruct (_ >=? _).
    + split; [exact Hup | apply expiry_le_refl].
    + split; [apply expiry_le_refl | exact Hup].
  - rewrite record_call_ignored by assumption.
    split; [apply expiry_le_refl | exact Hup].
Qed.

Lemma record_all_expiry_forward cs : forall self t0,
  expiry_le (_cooldown_until self) (Some (t0 + cooldown self)) ->
  chronological t0 cs ->
  expiry_le (_cooldown_until self) (_cooldown_until (record_all self cs))
  /\ expiry_le (_cooldown_until (record_all self cs))
               (Some (last_stamp t0 cs + cooldown self)).
Proof.
  induction cs as [| c cs IH]; intros self t0 Hinv Hchr.
  - split; [apply expiry_le_refl | exact Hinv].
  - destruct Hchr as [Ht Hrest].
    destruct (record_call_expiry_forward self c t0 Hinv Ht) as [H1 H2].
    destruct (record_loss_config self (lc_pnl c) (lc_ts c) (lc_utcnow c)) as (_ & Hcd & _).
    fold (record_call self c) in Hcd.
    rewrite <- Hcd in H2.
    destruct (IH (record_call self c) (stamp c) H2 Hrest) as [H3 H4].
    split.
    + eapply expiry_le_trans; [exact H1 | exact H3].
    + rewrite Hcd in H4. exact H4.
Qed.

Lemma chronological_app pre : forall t0 post,
  chronological t0 (pre ++ post) ->
  chronological t0 pre /\ chronological (last_stamp t0 pre) post.
Proof.
  induction pre as [| c pre IH]; intros t0 post H.
  - now split.
  - destruct H as [Ht H]. destruct (IH _ _ H) as [H1 H2]. now repeat split.
Qed.

(** C7, as stated, fails: the default tracker holds an expiry at minute
    twenty-two after three losses; a fourth loss reported with the earlier
    timestamp of minute one overwrites it with minute twenty-one. *)
Lemma C7_counterexample :
  let armed := record_all default (first_two_losses ++ [third_loss]) in
  exists a b,
    _cooldown_until armed = Some a
    /\ _cooldown_until (record_call armed late_report) = Some b
    /\ b < a.
Proof.
  exists (minutes 22), (minutes 21).
  split; [vm_compute; reflexivity |]. split; [vm_compute; reflexivity |].
  unfold minutes. lia.
Qed.

(** C7, amended.  No sequence of calls clears an expiry once it is set, and
    [should_pause] and [throttle_multiplier] never touch it.  Along calls
    whose timestamps do not decrease, the expiry only moves forward: what it
    is after any prefix of the calls is not after what it is at the end. *)
Theorem C7_expiry_forward_when_chronological (self : LossClusterTracker)
  (pre post : list loss_call) :
  (forall x, _cooldown_until (record_all self pre) = Some x ->
     exists y, _cooldown_until (record_all self (pre ++ post)) = Some y)
  /\ (forall s now, _cooldown_until (snd (should_pause s now)) = _cooldown_until s
                   /\ _cooldown_until (snd (throttle_multiplier s)) = _cooldown_until s)
  /\ (forall t0,
      expiry_le (_cooldown_until self) (Some (t0 + cooldown self)) ->
      chronological t0 (pre ++ post) ->
      expiry_le (_cooldown_until (record_all self pre))
                (_cooldown_until (record_all self (pre ++ post)))).
Proof.
  assert (S : record_all self (pre ++ post) = record_all (record_all self pre) post)
    by (unfold record_all; now rewrite fold_left_app).
  rewrite S. repeat split.
  - intros x E. now apply record_all_keeps_expiry with x.
  - intros t0 Hinv Hchr.
    apply chronological_app in Hchr as [Hpre Hpost].
    destruct (record_all_expiry_forward pre self t0 Hinv Hpre) as [_ H2].
    destruct (record_all_config self pre) as (_ & Hcd & _).
    rewrite <- Hcd in H2.
    exact (proj1 (record_all_expiry_forward post _ _ H2 Hpost)).
Qed.

(** The three losses of the scenario in the order of their timestamps, then
    a fourth one a minute later: the expiry goes from minute twenty-two to
    minute twenty-three. *)
Lemma C7_witness :
  chronological 0 ((first_two_losses ++ [third_loss]) ++ [fourth_loss])
  /\ _cooldown_until (record_all default (first_two_losses ++ [third_loss])) = Some (minutes 22)
  /\ _cooldown_until (record_all default ((first_two_losses ++ [third_loss]) ++ [fourth_loss]))
     = Some (minutes 23)
  /\ expiry_le (_cooldown_until (record_all default (first_two_losses ++ [third_loss])))
               (_cooldown_until
                  (record_all default ((first_two_losses ++ [third_loss]) ++ [fourth_loss]))).
Proof.
  assert (C : chronological 0 ((first_two_losses ++ [third_loss]) ++ [fourth_loss]))
    by (vm_compute; intuition discriminate).
  split; [exact C |].
  split; [vm_compute; reflexivity |]. split; [vm_compute; reflexivity |].
  apply (proj2 (proj2 (C7_expiry_forward_when_chronological default
                         (first_two_losses ++ [third_loss]) [fourth_loss])) 0).
  - exact I.
  - exact C.
Defined.

End TrackerFacts.

(* ===================================================================== *)
(** * Properties of the data-quality monitor                              *)
(* ===================================================================== *)

Section MonitorFacts.
Import data_quality.

(** ** Timeframes *)

Lemma str_last_none (s : string) : str_last s = None <-> s = EmptyString.
Proof.
  split; [| now intros ->].
  induction s as [| c s IH]; [reflexivity |].
  cbn. destruct s; [discriminate |]. intros H. now specialize (IH H).
Qed.

(** [int(s)] raises nothing but ValueError. *)
Lemma int_of_str_raises (s : string) (e : exn) : int_of_str s = Raise e -> e = ValueError.
Proof.
  unfold int_of_str. destruct (strip_sign (lstrip s)) as [neg body].
  destruct body as [| c body]; [congruence |].
  destruct (digit_of c); [| congruence].
  destruct (scan_digits _ _ _) as [[v rest] |]; [| congruence].
  destruct (max_str_digits <? count_digits _); [congruence |].
  destruct (lstrip rest); congruence.
Qed.

(** Every timeframe but the empty one has an interval. *)
Lemma _timeframe_ms_total (timeframe : string) :
  timeframe <> EmptyString -> exists ms, _timeframe_ms timeframe = Ok ms.
Proof.
  intros Hne. unfold _timeframe_ms.
  destruct (str_last timeframe) as [unit |] eqn:E.
  - destruct (int_of_str (str_init timeframe)) as [value | e] eqn:Ei.
    + repeat (destruct (Ascii.eqb unit _); [eexists; reflexivity |]).
      eexists; reflexivity.
    + apply int_of_str_raises in Ei. subst e. eexists; reflexivity.
  - apply str_last_none in E. contradiction.
Qed.

(** A timeframe whose prefix is no integer literal, or whose last character
    is none of s, m, h, d, has the default interval. *)
Lemma _timeframe_ms_fallback (timeframe : string) (unit : ascii) :
  str_last timeframe = Some unit ->
  is_ok (int_of_str (str_init timeframe)) = false
  \/ (unit <> "s" /\ unit <> "m" /\ unit <> "h" /\ unit <> "d")%char ->
  _timeframe_ms timeframe = Ok 300000.
Proof.
  intros E H. unfold _timeframe_ms. rewrite E.
  destruct (int_of_str (str_init timeframe)) as [value | e] eqn:Ei.
  - destruct H as [H | (Hs & Hm & Hh & Hd)]; [discriminate |].
    apply Ascii.eqb_neq in Hs, Hm, Hh, Hd. now rewrite Hs, Hm, Hh, Hd.
  - apply int_of_str_raises in Ei. now subst e.
Qed.

(** ** The shape of one evaluation *)

Lemma alerted_as_dict st : alerted (Ok (Some (as_dict st))) = alert st.
Proof. reflexivity. Qed.

Lemma condition_met_as_dict st :
  condition_met (Ok (Some (as_dict st))) = gap_detected st || stale st.
Proof. reflexivity. Qed.

(** [measure] leaves the alert field at its default. *)
Lemma measure_alert self timeframe ohlcv now st :
  measure self timeframe ohlcv now = Ok st -> alert st = false.
Proof.
  unfold measure, bind.
  repeat match goal with
         | |- context [match ?r with Ok _ => _ | Raise _ => _ end] =>
             destruct r; [| discriminate]
         end.
  intros [= <-]. reflexivity.
Qed.

Lemma evaluate_outcome self symbol timeframe ohlcv now now_alert :
  outcome self symbol timeframe ohlcv now now_alert
    (evaluate self symbol timeframe ohlcv now now_alert).
Proof.
  unfold evaluate.
  destruct (enabled self) eqn:En; cbn [negb orb].
  - destruct (length ohlcv <? 2)%nat eqn:El.
    + apply skipped. right. now apply Nat.ltb_lt.
    + apply Nat.ltb_ge in El.
      destruct (measure self timeframe ohlcv now) as [st | e] eqn:Em.
      * destruct (gap_detected st || stale st) eqn:Ec.
        -- destruct (_should_alert self (key_of symbol timeframe) now_alert) as [al m] eqn:Ea.
           pose proof (degraded self symbol timeframe ohlcv now now_alert st En El Em Ec) as H.
           rewrite Ea in H. exact H.
        -- now apply healthy.
      * now apply failed.
  - apply skipped. now left.
Qed.

(** ** The alert decision *)

Lemma _should_alert_fires self key now :
  float_ge (float_sub now (last_alert_of self key)) (alert_interval_sec self) = true ->
  _should_alert self key now = (true, set_last_alert self key now).
Proof. unfold _should_alert. now intros ->. Qed.

Lemma _should_alert_holds self key now :
  float_ge (float_sub now (last_alert_of self key)) (alert_interval_sec self) = false ->
  _should_alert self key now = (false, self).
Proof. unfold _should_alert. now intros ->. Qed.

Lemma _should_alert_decision self key now :
  fst (_should_alert self key now)
  = float_ge (float_sub now (last_alert_of self key)) (alert_interval_sec self).
Proof. unfold _should_alert. now destruct (float_ge _ _). Qed.

(** What an evaluation does to the monitor, read off the alert it returns. *)
Lemma evaluate_effect self symbol timeframe ohlcv now now_alert :
  (alerted (fst (evaluate self symbol timeframe ohlcv now now_alert)) = true ->
   snd (evaluate self symbol timeframe ohlcv now now_alert)
   = set_last_alert self (key_of symbol timeframe) now_alert)
  /\ (alerted (fst (evaluate self symbol timeframe ohlcv now now_alert)) = false ->
      snd (evaluate self symbol timeframe ohlcv now now_alert) = self).
Proof.
  destruct (evaluate_outcome self symbol timeframe ohlcv now now_alert)
    as [Hskip | e En El Em | st En El Em Ec | st En El Em Ec]; cbn [fst snd].
  - split; [discriminate | reflexivity].
  - split; [discriminate | reflexivity].
  - split; [discriminate | reflexivity].
  - rewrite alerted_as_dict. cbn [alert with_alert].
    unfold _should_alert. destruct (float_ge _ _); cbn [fst snd].
    + split; [reflexivity | discriminate].
    + split; [discriminate | reflexivity].
Qed.

(** An alert is returned exactly when a condition is met and the interval
    has elapsed since the last alert recorded for the key. *)
Lemma evaluate_alerted self symbol timeframe ohlcv now now_alert :
  alerted (fst (evaluate self symbol timeframe ohlcv now now_alert))
  = condition_met (fst (evaluate self symbol timeframe ohlcv now now_alert))
    && float_ge (float_sub now_alert (last_alert_of self (key_of symbol timeframe)))
                (alert_interval_sec self).
Proof.
  destruct (evaluate_outcome self symbol timeframe ohlcv now now_alert)
    as [Hskip | e En El Em | st En El Em Ec | st En El Em Ec]; cbn [fst snd].
  - reflexivity.
  - reflexivity.
  - rewrite alerted_as_dict, condition_met_as_dict. cbn [alert gap_detected stale with_alert].
    now rewrite Ec.
  - rewrite alerted_as_dict, condition_met_as_dict. cbn [alert gap_detected stale with_alert].
    now rewrite Ec, _should_alert_decision.
Qed.

Lemma set_last_alert_settings self key now : same_settings (set_last_alert self key now) self.
Proof. unfold same_settings. cbn. easy. Qed.

Lemma same_settings_refl self : same_settings self self.
Proof. unfold same_settings. easy. Qed.

Lemma same_settings_trans a b c : same_settings a b -> same_settings b c -> same_settings a c.
Proof. unfold same_settings. intuition congruence. Qed.

Lemma evaluate_settings self symbol timeframe ohlcv now now_alert :
  same_settings (snd (evaluate self symbol timeframe ohlcv now now_alert)) self.
Proof.
  destruct (evaluate_effect self symbol timeframe ohlcv now now_alert) as [Ht Hf].
  destruct (alerted (fst (evaluate self symbol timeframe ohlcv now now_alert))).
  - rewrite Ht by reflexivity. apply set_last_alert_settings.
  - rewrite Hf by reflexivity. apply same_settings_refl.
Qed.

(** C10. One evaluation changes the last-alert map at most at its own key,
    and only when the status it returns carries [alert: True]: the entry of
    the key then becomes the clock read by [_should_alert].  When the status
    carries [alert: False], or there is no status, the monitor is left as it
    was, also when the gap or the stale condition holds and the alert is held
    back by the interval.  The settings are never changed. *)
Theorem C10_last_alert_frame (self : DataQualityMonitor) (symbol timeframe : string)
  (ohlcv : list (list value)) (now now_alert : float) :
  let r := evaluate self symbol timeframe ohlcv now now_alert in
  let key := key_of symbol timeframe in
  (alerted (fst r) = true ->
     _last_alert (snd r) = <[key := now_alert]> (_last_alert self))
  /\ (alerted (fst r) = false -> snd r = self)
  /\ (condition_met (fst r) = true -> alerted (fst r) = false -> snd r = self)
  /\ (forall k, k <> key -> _last_alert (snd r) !! k = _last_alert self !! k)
  /\ same_settings (snd r) self.
Proof.
  intros r key.
  destruct (evaluate_effect self symbol timeframe ohlcv now now_alert) as [Ht Hf].
  fold r in Ht, Hf. fold key in Ht.
  repeat split.
  - intros H. now rewrite (Ht H).
  - exact Hf.
  - intros _. exact Hf.
  - intros k Hk. destruct (alerted (fst r)).
    + rewrite Ht by reflexivity. cbn. now rewrite lookup_insert_ne.
    + now rewrite Hf.
  - apply evaluate_settings.
  - apply evaluate_settings.
  - apply evaluate_settings.
  - apply evaluate_settings.
Qed.

(** The status as a function of the settings, the entry of the key, the
    arguments and the two clock reads. *)
Lemma evaluate_result self symbol timeframe ohlcv now now_alert :
  fst (evaluate self symbol timeframe ohlcv now now_alert)
  = if negb (enabled self) || (length ohlcv <? 2)%nat then Ok None
    else
      match measure self timeframe ohlcv now with
      | Raise e => Raise e
      | Ok st =>
          Ok (Some (as_dict
                      (with_alert st
                         ((gap_detected st || stale st)
                          && float_ge
                               (float_sub now_alert
                                  (last_alert_of self (key_of symbol timeframe)))
                               (alert_interval_sec self)))))
      end.
Proof.
  unfold evaluate.
  destruct (negb (enabled self) || (length ohlcv <? 2)%nat); [reflexivity |].
  destruct (measure self timeframe ohlcv now) as [st | e]; [| reflexivity].
  destruct (gap_detected st || stale st); cbn [andb].
  - unfold _should_alert. now destruct (float_ge _ _).
  - reflexivity.
Qed.

Lemma measure_settings a b timeframe ohlcv now :
  same_settings a b -> measure a timeframe ohlcv now = measure b timeframe ohlcv now.
Proof. intros (_ & _ & Hg & Hs). unfold measure. now rewrite Hg, Hs. Qed.

(** ** Sequences of evaluations *)

Lemma run_cons m c cs : run m (c :: cs) = run (snd (step m c)) cs.
Proof. reflexivity. Qed.

(** Calls that fire no alert for [key] leave its entry alone. *)
Lemma quiet_run key cs : forall m,
  quiet_for key m cs ->
  _last_alert (run m cs) !! key = _last_alert m !! key /\ same_settings (run m cs) m.
Proof.
  induction cs as [| c cs IH]; intros m Hq.
  - split; [reflexivity | apply same_settings_refl].
  - destruct Hq as [Hc Hrest]. rewrite run_cons.
    destruct (IH _ Hrest) as [IH1 IH2].
    assert (Hs : same_settings (snd (step m c)) m) by apply evaluate_settings.
    split; [| now apply same_settings_trans with (snd (step m c))].
    rewrite IH1. unfold step in *.
    destruct (evaluate_effect m (c_symbol c) (c_timeframe c) (c_ohlcv c)
                (c_now c) (c_now_alert c)) as [Ht Hf].
    destruct (alerted (fst (evaluate m (c_symbol c) (c_timeframe c) (c_ohlcv c)
                              (c_now c) (c_now_alert c)))) eqn:Ea.
    + rewrite Ht by reflexivity. cbn.
      destruct (decide (c_key c = key)) as [Hk | Hk].
      * specialize (Hc Hk). discriminate.
      * now rewrite lookup_insert_ne.
    + now rewrite Hf.
Qed.

(** While the entry of [key] is [t0], calls that fall within the span leave
    it there and fire nothing for the key. *)
Lemma within_span_quiet key t0 cs : forall m,
  _last_alert m !! key = Some t0 ->
  within_span key t0 (alert_interval_sec m) cs ->
  quiet_for key m cs.
Proof.
  induction cs as [| c cs IH]; intros m Hl Hspan; [exact I |].
  assert (Hc : c_key c = key -> alerted (fst (step m c)) = false).
  { intros Hk. unfold step. rewrite evaluate_alerted.
    fold (c_key c). rewrite Hk. unfold last_alert_of. rewrite Hl.
    rewrite (Hspan c) by (assumption || now left). apply andb_false_r. }
  split; [exact Hc |].
  destruct (quiet_run key [c] m) as [Hl' Hs'].
  { split; [exact Hc | exact I]. }
  apply IH.
  - change (run m [c]) with (snd (step m c)) in Hl'. now rewrite Hl'.
  - change (run m [c]) with (snd (step m c)) in Hs'.
    destruct Hs' as (_ & -> & _).
    intros c' Hin. apply Hspan. now right.
Qed.

(** Along any sequence of evaluations, the alerts returned for one key are
    spaced by the interval. *)
Lemma alert_times_spaced key cs : forall m,
  spaced (alert_interval_sec m) (last_alert_of m key) (alert_times key m cs).
Proof.
  induction cs as [| c cs IH]; intros m; [exact I |].
  cbn [alert_times].
  pose proof (evaluate_settings m (c_symbol c) (c_timeframe c) (c_ohlcv c)
                (c_now c) (c_now_alert c)) as (_ & Hi & _).
  pose proof (evaluate_alerted m (c_symbol c) (c_timeframe c) (c_ohlcv c)
                (c_now c) (c_now_alert c)) as Ha.
  destruct (evaluate_effect m (c_symbol c) (c_timeframe c) (c_ohlcv c)
              (c_now c) (c_now_alert c)) as [Ht Hf].
  fold (step m c) in Hi, Ha, Ht, Hf. fold (c_key c) in Ha, Ht.
  specialize (IH (snd (step m c))). rewrite Hi in IH.
  destruct (alerted (fst (step m c))) eqn:Ea; cbn [andb].
  - specialize (Ht eq_refl).
    symmetry in Ha. apply andb_true_iff in Ha as [_ Ha].
    destruct (String.eqb (c_key c) key) eqn:Ek.
    + apply String.eqb_eq in Ek. subst key. cbn [spaced]. split; [exact Ha |].
      replace (last_alert_of (snd (step m c)) (c_key c)) with (c_now_alert c) in IH;
        [exact IH |].
      unfold last_alert_of. rewrite Ht. cbn [_last_alert set_last_alert].
      now rewrite lookup_insert_eq.
    + apply String.eqb_neq in Ek.
      replace (last_alert_of (snd (step m c)) key) with (last_alert_of m key) in IH;
        [exact IH |].
      unfold last_alert_of. rewrite Ht. cbn [_last_alert set_last_alert].
      now rewrite lookup_insert_ne.
  - rewrite (Hf eq_refl) in IH |- *. exact IH.
Qed.

(** C5. Along every sequence of evaluations, from any monitor and for every
    key, each alert returned for the key comes at least [alert_interval_sec]
    after the one before it.  More precisely, take an evaluation that returns
    an alert for a key.  However many evaluations follow within the span of
    [alert_interval_sec] from it, met conditions or not, none of them returns
    an alert for that key.  After any evaluations none of which returned an
    alert for the key, the next evaluation of the key returns an alert exactly
    when the gap or the stale condition is met and the interval has elapsed
    since the first: no second alert sooner, and an alert again once it has.
    Elapsed time is what the code computes, [now - last] on the clock reads
    of [_should_alert], compared with [>=]. *)
Theorem C5_one_alert_per_interval (m : DataQualityMonitor) (key : string)
  (cs : list call) (first : call) (between : list call) (next : call) :
  spaced (alert_interval_sec m) (last_alert_of m key) (alert_times key m cs)
  /\ (alerted (fst (step m first)) = true ->
      c_key first = key ->
      let m1 := snd (step m first) in
      let elapsed := float_sub (c_now_alert next) (c_now_alert first) in
      (within_span key (c_now_alert first) (alert_interval_sec m) between ->
       quiet_for key m1 between)
      /\ (quiet_for key m1 between -> c_key next = key ->
          alerted (fst (step (run m1 between) next))
          = condition_met (fst (step (run m1 between) next))
            && float_ge elapsed (alert_interval_sec m))).
Proof.
  split; [apply alert_times_spaced |].
  intros Hfirst <- m1 elapsed.
  assert (Hl1 : _last_alert m1 !! c_key first = Some (c_now_alert first)).
  { unfold m1, step in *. rewrite (proj1 (evaluate_effect _ _ _ _ _ _) Hfirst).
    cbn [_last_alert set_last_alert]. apply lookup_insert_eq. }
  assert (Hs1 : same_settings m1 m) by apply evaluate_settings.
  split.
  - intros Hspan. apply within_span_quiet with (c_now_alert first); [exact Hl1 |].
    destruct Hs1 as (_ & -> & _). exact Hspan.
  - intros Hquiet Hkey. unfold step at 1. rewrite evaluate_alerted.
    fold (step (run m1 between) next). fold (c_key next). rewrite Hkey.
    destruct (quiet_run _ _ _ Hquiet) as [Hl Hs].
    assert (Hs' : same_settings (run m1 between) m)
      by (eapply same_settings_trans; eassumption).
    destruct Hs' as (_ & -> & _).
    unfold last_alert_of. now rewrite Hl, Hl1.
Qed.

(** The feed of BTC/USD is stale at three instants: the first evaluation
    alerts, the second, 600 seconds later, does not, and neither it nor an
    alert for another pair delays the third, 2000 seconds after the first,
    which alerts again. *)
Lemma C5_witness :
  alerted (fst (step default (stale_call t_first))) = true
  /\ alerted (fst (step (snd (step default (stale_call t_first))) (stale_call t_second)))
     = false
  /\ alerted
       (fst (step (run (snd (step default (stale_call t_first)))
                       [stale_call t_second; other_call t_second])
                  (stale_call t_third))) = true
  /\ alert_times (c_key (stale_call t_first)) default
       [stale_call t_first; stale_call t_second; other_call t_second; stale_call t_third]
     = [t_first; t_third].
Proof.
  assert (A : alerted (fst (step default (stale_call t_first))) = true)
    by (vm_compute; reflexivity).
  pose proof (proj2 (C5_one_alert_per_interval default (c_key (stale_call t_first)) []
                       (stale_call t_first) [stale_call t_second; other_call t_second]
                       (stale_call t_third)) A eq_refl) as T.
  cbv zeta in T. destruct T as (S & E).
  assert (Q : quiet_for (c_key (stale_call t_first)) (snd (step default (stale_call t_first)))
                [stale_call t_second; other_call t_second]).
  { apply S. intros c [<- | [<- | []]] Hk.
    - vm_compute. reflexivity.
    - vm_compute in Hk. discriminate. }
  split; [exact A |]. split; [exact (proj1 Q eq_refl) |].
  split; [rewrite (E Q eq_refl); vm_compute; reflexivity | vm_compute; reflexivity].
Defined.

(** The first evaluation of a stale feed returns an alert and records its
    clock under the key; the second, held back, leaves the monitor alone. *)
Lemma C10_witness :
  _last_alert (snd (evaluate default "BTC/USD" "1m" candles_0_100 t_first t_first))
  = <[key_of "BTC/USD" "1m" := t_first]> (_last_alert default)
  /\ snd (evaluate (snd (step default (stale_call t_first)))
                   "BTC/USD" "1m" candles_0_100 t_second t_second)
     = snd (step default (stale_call t_first)).
Proof.
  split.
  - apply (proj1 (C10_last_alert_frame default "BTC/USD" "1m" candles_0_100 t_first t_first)).
    vm_compute. reflexivity.
  - apply (proj1 (proj2 (C10_last_alert_frame (snd (step default (stale_call t_first)))
                           "BTC/USD" "1m" candles_0_100 t_second t_second))).
    vm_compute. reflexivity.
Defined.

(** ** What the status is made of *)

Lemma evaluate_none_iff self symbol timeframe ohlcv now now_alert :
  fst (evaluate self symbol timeframe ohlcv now now_alert) = Ok None
  <-> enabled self = false \/ (length ohlcv < 2)%nat.
Proof.
  destruct (evaluate_outcome self symbol timeframe ohlcv now now_alert)
    as [Hskip | e En El Em | st En El Em Ec | st En El Em Ec]; cbn [fst].
  - easy.
  - split; [discriminate | intros [H | H]; [congruence | lia]].
  - split; [discriminate | intros [H | H]; [congruence | lia]].
  - split; [discriminate | intros [H | H]; [congruence | lia]].
Qed.

Lemma index_from_end_last {A} (pre : list A) (r1 r2 : A) :
  index_from_end (pre ++ [r1; r2]) 1 = Ok r2
  /\ index_from_end (pre ++ [r1; r2]) 2 = Ok r1.
Proof. unfold index_from_end. rewrite rev_app_distr. now split. Qed.

(** Only the last two rows are read. *)
Lemma measure_last_two self timeframe pre r1 r2 now :
  measure self timeframe (pre ++ [r1; r2]) now = measure self timeframe [r1; r2] now.
Proof.
  destruct (index_from_end_last pre r1 r2) as [E1 E2].
  destruct (index_from_end_last [] r1 r2) as [F1 F2]. cbn [app] in F1, F2.
  unfold measure.
  destruct (_timeframe_ms timeframe) as [ms |]; cbn [bind]; [| reflexivity].
  rewrite E1, F1. cbn [bind].
  destruct (index0 r2) as [v2 |]; cbn [bind]; [| reflexivity].
  destruct (int_of_value v2) as [t2 |]; cbn [bind]; [| reflexivity].
  now rewrite E2, F2.
Qed.

(** [measure] on two rows gives a status exactly when the five conversions
    it makes succeed, and the status is then made of their results. *)
Lemma measure_ok self timeframe r1 r2 now st :
  measure self timeframe [r1; r2] now = Ok st
  <-> exists ms t1 t2 f now_ms,
        _timeframe_ms timeframe = Ok ms
        /\ (v <- index0 r2 ;; int_of_value v) = Ok t2
        /\ (v <- index0 r1 ;; int_of_value v) = Ok t1
        /\ float_of_int ms = Ok f
        /\ int_of_float (float_mul now (float_round 1000)) = Ok now_ms
        /\ st = mkStatus t2 (t2 - t1)
                  (int_gt_float (t2 - t1) (float_mul f (gap_multiplier self)))
                  (int_gt_float (now_ms - t2) (float_mul f (stale_multiplier self)))
                  false.
Proof.
  unfold measure, int_mul_float.
  cbn [index_from_end rev app nth_error Nat.pred].
  destruct (_timeframe_ms timeframe) as [ms | e1]; cbn [bind].
  2: { split; [discriminate | intros (? & ? & ? & ? & ? & H & _); discriminate]. }
  destruct (index0 r2) as [v2 | e2]; cbn [bind].
  2: { split; [discriminate | intros (? & ? & ? & ? & ? & _ & H & _); discriminate]. }
  destruct (int_of_value v2) as [t2 | e2]; cbn [bind].
  2: { split; [discriminate | intros (? & ? & ? & ? & ? & _ & H & _); discriminate]. }
  destruct (index0 r1) as [v1 | e3]; cbn [bind].
  2: { split; [discriminate | intros (? & ? & ? & ? & ? & _ & _ & H & _); discriminate]. }
  destruct (int_of_value v1) as [t1 | e3]; cbn [bind].
  2: { split; [discriminate | intros (? & ? & ? & ? & ? & _ & _ & H & _); discriminate]. }
  destruct (float_of_int ms) as [f | e4] eqn:Ef; cbn [bind].
  2: { split; [discriminate | intros (? & ? & ? & ? & ? & [= <-] & _ & _ & H & _); congruence]. }
  destruct (int_of_float (float_mul now (float_round 1000))) as [now_ms | e5]; cbn [bind].
  2: { split; [discriminate | intros (? & ? & ? & ? & ? & _ & _ & _ & _ & H & _); discriminate]. }
  split.
  - intros [= <-]. exists ms, t1, t2, f, now_ms. repeat split. exact Ef.
  - intros (? & ? & ? & ? & ? & [= <-] & [= <-] & [= <-] & H & [= <-] & ->).
    rewrite Ef in H. injection H as <-. reflexivity.
Qed.

(** What [evaluate] returns for an enabled monitor and at least two rows. *)
Lemma evaluate_two_rows self symbol timeframe pre r1 r2 now now_alert :
  enabled self = true ->
  fst (evaluate self symbol timeframe (pre ++ [r1; r2]) now now_alert)
  = match measure self timeframe [r1; r2] now with
    | Raise e => Raise e
    | Ok st =>
        Ok (Some (as_dict
                    (with_alert st
                       ((gap_detected st || stale st)
                        && float_ge
                             (float_sub now_alert
                                (last_alert_of self (key_of symbol timeframe)))
                             (alert_interval_sec self)))))
    end.
Proof.
  intros En. rewrite evaluate_result, En, length_app. cbn [length negb orb].
  replace (length pre + 2 <? 2)%nat with false by (symmetry; apply Nat.ltb_ge; lia).
  now rewrite measure_last_two.
Qed.

(** C6, amended.  [evaluate] returns [None] exactly when the monitor is
    disabled or fewer than two candles are supplied.  Rows before the last
    two are never read.  Every timeframe but the empty string has an interval.  For an
    enabled monitor and at least two rows, when the timeframe has an interval
    [ms] and the conversions that [evaluate] makes raise nothing ([int] of
    the first field of each of the last two rows, [float] of the interval,
    [int] of the clock in milliseconds), it returns a dict in which "last_ts"
    is [int] of the last timestamp, "gap_ms" is that minus [int] of the
    timestamp before, "gap" is [gap_ms > expected_ms * gap_multiplier] and
    "stale" is [now_ms - last_ts > expected_ms * stale_multiplier]: the
    products are the float products of the code, and the comparisons are
    exact, that is, true exactly when the rational the product denotes is
    below the integer on the left.  On integer timestamps [int] changes
    nothing. *)
Theorem C6_evaluate_status (self : DataQualityMonitor) (symbol timeframe : string)
  (ohlcv : list (list value)) (now now_alert : float) :
  (fst (evaluate self symbol timeframe ohlcv now now_alert) = Ok None
   <-> enabled self = false \/ (length ohlcv < 2)%nat)
  /\ (forall pre r1 r2, ohlcv = pre ++ [r1; r2] ->
      evaluate self symbol timeframe ohlcv now now_alert
      = evaluate self symbol timeframe [r1; r2] now now_alert)
  /\ (timeframe <> EmptyString -> exists ms, _timeframe_ms timeframe = Ok ms)
  /\ (forall pre r1 r2 ms t1 t2 f now_ms,
      enabled self = true ->
      ohlcv = pre ++ [r1; r2] ->
      _timeframe_ms timeframe = Ok ms ->
      (v <- index0 r2 ;; int_of_value v) = Ok t2 ->
      (v <- index0 r1 ;; int_of_value v) = Ok t1 ->
      float_of_int ms = Ok f ->
      int_of_float (float_mul now (float_round 1000)) = Ok now_ms ->
      exists d,
        fst (evaluate self symbol timeframe ohlcv now now_alert) = Ok (Some d)
        /\ dict_get d "last_ts" = Some (VInt t2)
        /\ dict_get d "gap_ms" = Some (VInt (t2 - t1))
        /\ dict_get d "gap"
           = Some (VBool (int_gt_float (t2 - t1) (float_mul f (gap_multiplier self))))
        /\ dict_get d "stale"
           = Some (VBool (int_gt_float (now_ms - t2) (float_mul f (stale_multiplier self))))
        /\ (forall q, float_value (float_mul f (gap_multiplier self)) = Some q ->
            dict_get d "gap" = Some (VBool true) <-> Qlt q (inject_Z (t2 - t1)))
        /\ (forall q, float_value (float_mul f (stale_multiplier self)) = Some q ->
            dict_get d "stale" = Some (VBool true) <-> Qlt q (inject_Z (now_ms - t2))))
  /\ (forall t rest, (v <- index0 (VInt t :: rest) ;; int_of_value v) = Ok t).
Proof.
  split; [apply evaluate_none_iff |]. split; [| split; [| split]].
  - intros pre r1 r2 ->. unfold evaluate.
    rewrite measure_last_two, length_app. cbn [length].
    replace (length pre + 2 <? 2)%nat with false by (symmetry; apply Nat.ltb_ge; lia).
    reflexivity.
  - apply _timeframe_ms_total.
  - intros pre r1 r2 ms t1 t2 f now_ms En -> Ems E2 E1 Ef Enow.
    assert (M : measure self timeframe [r1; r2] now
                = Ok (mkStatus t2 (t2 - t1)
                        (int_gt_float (t2 - t1) (float_mul f (gap_multiplier self)))
                        (int_gt_float (now_ms - t2) (float_mul f (stale_multiplier self)))
                        false)).
    { apply measure_ok. exists ms, t1, t2, f, now_ms.
      repeat (split; [assumption |]). reflexivity. }
    eexists. split.
    { rewrite (evaluate_two_rows _ _ _ _ _ _ _ _ En), M. reflexivity. }
    cbn [as_dict with_alert last_ts gap_ms gap_detected stale dict_get String.eqb
           Ascii.eqb Bool.eqb].
    do 4 (split; [reflexivity |]).
    split; intros q Hq.
    + rewrite <- (int_gt_float_exact _ _ _ Hq). split; [now intros [= ->] | now intros ->].
    + rewrite <- (int_gt_float_exact _ _ _ Hq). split; [now intros [= ->] | now intros ->].
  - reflexivity.
Qed.

(** Candles [[0, ...], [100, ...]] on the timeframe "1m" with the default
    gap multiplier 1.4: the interval is 60000 ms, "gap_ms" is 100 and "gap"
    is false. *)
Lemma C6_witness :
  _timeframe_ms "1m" = Ok 60000
  /\ gap_multiplier default = float_lit 14 10
  /\ exists d,
       fst (evaluate default "BTC/USD" "1m" candles_0_100 t_first t_first) = Ok (Some d)
       /\ dict_get d "gap_ms" = Some (VInt 100)
       /\ dict_get d "gap" = Some (VBool false).
Proof.
  split; [vm_compute; reflexivity |]. split; [reflexivity |].
  destruct (proj1 (proj2 (proj2 (proj2 (C6_evaluate_status default "BTC/USD" "1m"
                                          candles_0_100 t_first t_first))))
              [] (hd [] candles_0_100) (hd [] (tl candles_0_100))
              60000 0 100 (float_round 60000) 1700000000500)
    as (d & E & _ & Hgap & Hdet & _).
  - reflexivity.
  - reflexivity.
  - vm_compute. reflexivity.
  - reflexivity.
  - reflexivity.
  - vm_compute. reflexivity.
  - vm_compute. reflexivity.
  - exists d. split; [exact E |]. split; [exact Hgap |].
    rewrite Hdet. vm_compute. reflexivity.
Defined.

(** C6, as stated, fails.  Two rows with the timestamps 0.5 and 100.25:
    they are 99.75 apart and "gap_ms" is 100, each timestamp being cut to an
    integer before the subtraction.  Two rows, the last with the timestamp
    NaN, and two rows on a timeframe of 10^400 days: the monitor is enabled,
    the rows are two, and [evaluate] returns neither [None] nor a status:
    [int] raises ValueError, the product of line 76 raises OverflowError. *)
Lemma C6_counterexample :
  enabled default = true
  /\ (exists d,
        fst (evaluate default "BTC/USD" "1m" candles_fractional t_first t_first)
        = Ok (Some d)
        /\ dict_get d "gap_ms" = Some (VInt 100)
        /\ float_sub (float_lit 10025 100) (float_lit 5 10) = float_lit 9975 100)
  /\ length candles_nan = 2%nat
  /\ fst (evaluate default "BTC/USD" "1m" candles_nan t_first t_first) = Raise ValueError
  /\ length candles_0_100 = 2%nat
  /\ fst (evaluate default "BTC/USD" (days_1e 400) candles_0_100 t_first t_first)
     = Raise OverflowError.
Proof.
  split; [reflexivity |].
  split; [| split; [reflexivity | split; [vm_compute; reflexivity |]]].
  - eexists. split; [vm_compute; reflexivity |]. split; vm_compute; reflexivity.
  - split; [reflexivity | vm_compute; reflexivity].
Qed.

(** ** The empty timeframe *)

(** C2 at the empty timeframe: [timeframe[-1]] on line 9 stands outside the
    [try] and raises IndexError, which [evaluate] lets through.  "bogus"
    falls back to 300000 ms and gives a status.  A timeframe of 10^400 days
    has an interval, but no float can hold it, and the product of line 76
    raises OverflowError. *)
Theorem C2_empty_timeframe_raises :
  _timeframe_ms "" = Raise IndexError
  /\ fst (evaluate default "BTC/USD" "" candles_0_100 t_first t_first) = Raise IndexError
  /\ _timeframe_ms "bogus" = Ok 300000
  /\ is_ok (fst (evaluate default "BTC/USD" "bogus" candles_0_100 t_first t_first)) = true
  /\ _timeframe_ms (days_1e 400) = Ok (10 ^ 400 * 86400000)
  /\ fst (evaluate default "BTC/USD" (days_1e 400) candles_0_100 t_first t_first)
     = Raise OverflowError.
Proof. repeat split; vm_compute; reflexivity. Qed.

End MonitorFacts.
(* ===================================================================== *)
(** * More on the clustered-loss tracker                                  *)
(* ===================================================================== *)

Section HistoryFacts.
Import loss_cluster loss_history.

Lemma recorded_is_loss (c : loss_call) : recorded c = true <-> is_loss c.
Proof. unfold recorded, is_loss. destruct (float_ge_int (lc_pnl c) 0); easy. Qed.

Lemma events_of_snoc cs c :
  events_of (cs ++ [c]) = events_of cs ++ (if recorded c then [event_of c] else []).
Proof.
  unfold events_of. rewrite List.filter_app, map_app. cbn.
  now destruct (recorded c).
Qed.

Lemma in_window_later w t t' e : t <= t' -> in_window w t e = false -> in_window w t' e = false.
Proof.
  unfold in_window. intros Ht H. apply negb_false_iff in H. apply Z.gtb_gt in H.
  apply negb_false_iff. apply Z.gtb_gt. lia.
Qed.

(** ** [_prune] *)

Lemma prune_deque_expired w now l :
  exists gone, l = gone ++ prune_deque w now l
               /\ Forall (fun e => in_window w now e = false) gone.
Proof.
  induction l as [| e l (gone & E & F)]; cbn.
  - exists []. now split.
  - destruct (now - ts e >? w) eqn:He.
    + exists (e :: gone). split; [cbn; now f_equal |].
      constructor; [unfold in_window; now rewrite He | exact F].
    + exists []. now split.
Qed.

Lemma prune_deque_head w now l e rest :
  prune_deque w now l = e :: rest -> in_window w now e = true.
Proof.
  induction l as [| a l IH]; cbn; [discriminate |].
  destruct (now - ts a >? w) eqn:Ha; [exact IH |].
  intros [= <- <-]. unfold in_window. now rewrite Ha.
Qed.

Lemma prune_deque_fixed w now l :
  (forall e rest, l = e :: rest -> in_window w now e = true) -> prune_deque w now l = l.
Proof.
  destruct l as [| e l]; [reflexivity |]. intros H. cbn.
  specialize (H e l eq_refl). unfold in_window in H.
  now destruct (now - ts e >? w).
Qed.

(** X1. [_prune] pops the longest prefix of events that are older than the
    window: what it removes is a prefix, every removed event is older than
    the window, the oldest event that stays is not, and pruning again at the
    same instant removes nothing. *)
Theorem prune_removes_longest_expired_prefix (self : LossClusterTracker) (now : datetime) :
  exists gone,
    _losses self = gone ++ _losses (_prune self now)
    /\ Forall (fun e => in_window (window self) now e = false) gone
    /\ (forall e rest, _losses (_prune self now) = e :: rest ->
        in_window (window self) now e = true)
    /\ _prune (_prune self now) now = _prune self now.
Proof.
  destruct (prune_deque_expired (window self) now (_losses self)) as (gone & E & F).
  exists gone. cbn [_prune _losses]. split; [exact E |]. split; [exact F |]. split.
  - apply prune_deque_head.
  - unfold _prune. cbn. f_equal. apply prune_deque_fixed. apply prune_deque_head.
Qed.

(** ** The deque against the calls made so far *)

Lemma last_stamp_snoc t0 cs c : last_stamp t0 (cs ++ [c]) = stamp c.
Proof. unfold last_stamp. now rewrite fold_left_app. Qed.

Lemma history_suffix cs : forall self,
  exists gone, _losses self ++ events_of cs = gone ++ _losses (record_all self cs).
Proof.
  induction cs as [| c cs IH] using rev_ind; intros self.
  - exists []. cbn. now rewrite app_nil_r.
  - destruct (IH self) as [gone E].
    rewrite events_of_snoc, record_all_snoc, app_assoc, E.
    destruct (recorded c) eqn:Hc.
    + apply recorded_is_loss in Hc. rewrite record_call_losses by assumption.
      destruct (prune_deque_expired (window (record_all self cs)) (stamp c)
                  (_losses (record_all self cs) ++ [event_of c])) as (g2 & E2 & _).
      exists (gone ++ g2). rewrite <- !app_assoc. f_equal. exact E2.
    + rewrite record_call_ignored, app_nil_r.
      * now exists gone.
      * intros H. apply recorded_is_loss in H. congruence.
Qed.

(** X3. Whatever the order of the timestamps, the deque is always the newest
    part of the history: the events it held at first followed by one event
    per recorded call, in call order, with some oldest events removed.  So
    nothing is reordered, duplicated or taken from the newest end, calls
    with [pnl >= 0] add nothing, and the count grows by at most one per
    recorded call. *)
Theorem deque_is_newest_part_of_history (self : LossClusterTracker) (cs : list loss_call) :
  exists gone,
    _losses self ++ events_of cs = gone ++ _losses (record_all self cs)
    /\ len (record_all self cs) + Z.of_nat (length gone)
       = len self + Z.of_nat (length (List.filter recorded cs)).
Proof.
  destruct (history_suffix cs self) as [gone E]. exists gone. split; [exact E |].
  apply (f_equal (@length _)) in E. rewrite !length_app in E.
  unfold events_of in E. rewrite length_map in E. unfold len. lia.
Qed.

(** ** Timestamps in order: the deque is the window *)

Lemma ascending_bound t t' l : t <= t' -> ascending t l -> ascending t' l.
Proof.
  intros Ht. induction l as [| e l IH]; cbn; [easy |].
  intros (H1 & H2 & H3). repeat split; [lia | exact H2 | now apply IH].
Qed.

Lemma ascending_snoc t l e : ascending t l -> t <= ts e -> ascending (ts e) (l ++ [e]).
Proof.
  intros H Ht. induction l as [| a l IH]; cbn.
  - repeat split; [lia | easy].
  - destruct H as (H1 & H2 & H3). repeat split.
    + lia.
    + intros e' He'. apply in_app_or in He' as [He' | [<- | []]]; [now apply H2 | lia].
    + now apply IH.
Qed.

Lemma ascending_app_r t l1 l2 : ascending t (l1 ++ l2) -> ascending t l2.
Proof. induction l1 as [| a l1 IH]; cbn; [easy |]. intros (_ & _ & H). now apply IH. Qed.

Lemma ascending_in_window w now t e rest :
  ascending t (e :: rest) -> in_window w now e = true ->
  Forall (fun e' => in_window w now e' = true) (e :: rest).
Proof.
  intros (_ & H & _) He. constructor; [exact He |].
  apply List.Forall_forall. intros e' He'. specialize (H e' He').
  unfold in_window in *. apply negb_true_iff in He. apply negb_true_iff.
  destruct (now - ts e' >? w) eqn:E; [| reflexivity].
  apply Z.gtb_gt in E.
  assert (now - ts e > w) as G by lia. apply Z.gtb_gt in G. congruence.
Qed.

Lemma filter_none {A} (p : A -> bool) l : Forall (fun x => p x = false) l -> List.filter p l = [].
Proof. induction 1 as [| x l Hx _ IH]; cbn; [reflexivity |]. now rewrite Hx. Qed.

Lemma filter_all {A} (p : A -> bool) l : Forall (fun x => p x = true) l -> List.filter p l = l.
Proof. induction 1 as [| x l Hx _ IH]; cbn; [reflexivity |]. rewrite Hx. now f_equal. Qed.

Lemma history_in_order cs : forall self t0,
  ascending t0 (_losses self) ->
  chronological t0 cs ->
  exists gone,
    _losses self ++ events_of cs = gone ++ _losses (record_all self cs)
    /\ Forall (fun e => in_window (window self) (last_stamp t0 cs) e = false) gone
    /\ ascending (last_stamp t0 cs) (_losses self ++ events_of cs).
Proof.
  induction cs as [| c cs IH] using rev_ind; intros self t0 Hasc Hchr.
  - exists []. cbn. rewrite app_nil_r. repeat split; [constructor | exact Hasc].
  - apply chronological_app in Hchr as [Hcs [Hc _]].
    destruct (IH self t0 Hasc Hcs) as (gone & E & F & A).
    rewrite last_stamp_snoc, events_of_snoc, record_all_snoc, app_assoc.
    assert (F' : Forall (fun e => in_window (window self) (stamp c) e = false) gone).
    { eapply List.Forall_impl; [| exact F]. intros e. now apply in_window_later. }
    destruct (recorded c) eqn:Hrec.
    + apply recorded_is_loss in Hrec. rewrite record_call_losses by assumption.
      destruct (record_all_config self cs) as (-> & _).
      destruct (prune_deque_expired (window self) (stamp c)
                  (_losses (record_all self cs) ++ [event_of c])) as (g2 & E2 & F2).
      exists (gone ++ g2). repeat split.
      * rewrite E, <- !app_assoc. f_equal. exact E2.
      * apply Forall_app. now split.
      * change (stamp c) with (ts (event_of c)).
        apply ascending_snoc with (last_stamp t0 cs); [exact A | exact Hc].
    + rewrite record_call_ignored, app_nil_r.
      * exists gone. repeat split; [exact E | exact F' | now apply ascending_bound with (last_stamp t0 cs)].
      * intros H. apply recorded_is_loss in H. congruence.
Qed.

(** X2. When timestamps never decrease (the deque is in order to begin with
    and every call is stamped at or after the one before), the deque right
    after a recorded loss is exactly the sliding window: the events of the
    history, first to last, that are not older than [window] at that loss's
    timestamp.  The count that [throttle_multiplier] and the pause test read
    is then the number of losses of the last [window]. *)
Theorem deque_is_the_window_when_chronological (self : LossClusterTracker) (t0 : datetime)
  (pre : list loss_call) (c : loss_call) :
  ascending t0 (_losses self) ->
  chronological t0 (pre ++ [c]) ->
  is_loss c ->
  _losses (record_all self (pre ++ [c]))
  = List.filter (in_window (window self) (stamp c)) (_losses self ++ events_of (pre ++ [c])).
Proof.
  intros Hasc Hchr Hc.
  destruct (history_in_order (pre ++ [c]) self t0 Hasc Hchr) as (gone & E & F & A).
  rewrite last_stamp_snoc in F, A. rewrite E in A |- *.
  rewrite List.filter_app, (filter_none _ _ F). cbn [app]. symmetry. apply filter_all.
  apply ascending_app_r in A.
  destruct (_losses (record_all self (pre ++ [c]))) as [| e rest] eqn:D; [constructor |].
  apply ascending_in_window with (stamp c); [exact A |].
  rewrite record_all_snoc, record_call_losses in D by assumption.
  destruct (record_all_config self pre) as (W & _). rewrite W in D.
  exact (prune_deque_head _ _ _ _ _ D).
Qed.

(** Losses at minutes 0, 10, 25, 35 and 50 with the default window of thirty
    minutes: after the last one the deque holds the losses of minutes 25, 35
    and 50. *)
Lemma deque_is_the_window_witness :
  _losses (record_all default (map at_minute [0; 10; 25; 35] ++ [at_minute 50]))
  = map event_of (map at_minute [25; 35; 50]).
Proof.
  rewrite (deque_is_the_window_when_chronological default 0
             (map at_minute [0; 10; 25; 35]) (at_minute 50)).
  - vm_compute. reflexivity.
  - exact I.
  - vm_compute. intuition discriminate.
  - vm_compute. reflexivity.
Defined.

(** ** A recorded loss *)

(** X4. With a window that is not negative, every call whose [pnl] is not
    [>= 0] (negative, minus infinity, and also NaN, for which the test of
    line 37 is false) leaves its own event as the newest of the deque: the
    prune that follows cannot remove it. *)
Theorem recorded_loss_is_newest (self : LossClusterTracker) (c : loss_call) :
  ~ nonnegative (lc_pnl c) ->
  0 <= window self ->
  exists older, _losses (record_call self c) = older ++ [event_of c].
Proof.
  intros Hneg Hw.
  assert (Hc : is_loss c).
  { unfold is_loss. destruct (float_ge_int (lc_pnl c) 0) eqn:E; [| reflexivity].
    apply ge_zero_iff_nonnegative in E. contradiction. }
  rewrite record_call_losses by assumption.
  apply prune_deque_keeps. intros e [<- | []]. cbn. lia.
Qed.

(** A NaN on a default tracker that holds two losses: it is the third event. *)
Lemma recorded_loss_is_newest_witness :
  _losses (record_call (record_all default first_two_losses)
             (mkLossCall S754_nan None (minutes 2)))
  = _losses (record_all default first_two_losses)
    ++ [mkLossEvent (minutes 2) S754_nan].
Proof.
  destruct (recorded_loss_is_newest (record_all default first_two_losses)
              (mkLossCall S754_nan None (minutes 2))) as [older E].
  - cbn. easy.
  - vm_compute. discriminate.
  - vm_compute. reflexivity.
Defined.

(** X5. When [throttle_losses] is not above [pause_losses], a call that sets
    or moves the cooldown expiry leaves the tracker throttled: right after it
    [throttle_multiplier()] is 0.25. *)
Theorem arming_the_pause_throttles (self : LossClusterTracker) (c : loss_call) :
  throttle_losses self <= pause_losses self ->
  _cooldown_until (record_call self c) <> _cooldown_until self ->
  fst (throttle_multiplier (record_call self c)) = f_0_25.
Proof.
  intros Hle Hch. destruct (is_loss_dec c) as [Hc | Hc].
  - rewrite record_call_expiry in Hch by assumption.
    destruct (len (record_call self c) >=? pause_losses self) eqn:E; [| congruence].
    apply Z.geb_le in E. unfold throttle_multiplier. cbn [fst].
    destruct (record_loss_config self (lc_pnl c) (lc_ts c) (lc_utcnow c)) as (_ & _ & Ht & _).
    fold (record_call self c) in Ht. rewrite Ht.
    assert (G : throttle_losses self <= len (record_call self c)) by lia.
    apply Z.geb_le in G. now rewrite G.
  - rewrite record_call_ignored in Hch by assumption. congruence.
Qed.

Lemma arming_the_pause_throttles_witness :
  _cooldown_until (record_call (record_all default first_two_losses) third_loss)
  <> _cooldown_until (record_all default first_two_losses)
  /\ fst (throttle_multiplier (record_call (record_all default first_two_losses) third_loss))
     = f_0_25.
Proof.
  assert (H : _cooldown_until (record_call (record_all default first_two_losses) third_loss)
              <> _cooldown_until (record_all default first_two_losses))
    by (vm_compute; discriminate).
  split; [exact H |].
  apply arming_the_pause_throttles; [vm_compute; discriminate | exact H].
Defined.

(** X6. After any calls, the cooldown expiry is either what it was before
    them or the timestamp of one of their recorded losses plus the cooldown:
    no other value is ever stored. *)
Theorem expiry_comes_from_a_recorded_loss (self : LossClusterTracker) (cs : list loss_call) :
  _cooldown_until (record_all self cs) = _cooldown_until self
  \/ exists c, In c cs /\ is_loss c
               /\ _cooldown_until (record_all self cs) = Some (stamp c + cooldown self).
Proof.
  induction cs as [| c cs IH] using rev_ind; [now left |].
  rewrite record_all_snoc.
  destruct (is_loss_dec c) as [Hc | Hc].
  - rewrite record_call_expiry by assumption.
    destruct (_ >=? _).
    + right. exists c. destruct (record_all_config self cs) as (_ & -> & _).
      repeat split; [apply in_or_app; right; now left | exact Hc].
    + destruct IH as [IH | (c' & Hin & Hc' & IH)]; [now left |].
      right. exists c'. repeat split; [apply in_or_app; now left | exact Hc' | exact IH].
  - rewrite record_call_ignored by assumption.
    destruct IH as [IH | (c' & Hin & Hc' & IH)]; [now left |].
    right. exists c'. repeat split; [apply in_or_app; now left | exact Hc' | exact IH].
Qed.

End HistoryFacts.

(* ===================================================================== *)
(** * More on the data-quality monitor                                    *)
(* ===================================================================== *)

Section MonitorInputFacts.
Import data_quality monitor_inputs.

(** ** Timeframes *)

Lemma str_last_snoc (s : string) (c : ascii) : str_last (s ++ String c EmptyString) = Some c.
Proof.
  induction s as [| a s IH]; [reflexivity |].
  destruct s as [| b s]; [reflexivity | exact IH].
Qed.

Lemma str_init_snoc (s : string) (c : ascii) : str_init (s ++ String c EmptyString) = s.
Proof.
  induction s as [| a s IH]; [reflexivity |].
  destruct s as [| b s]; [reflexivity |].
  change (String a (str_init (String b s ++ String c EmptyString)) = String a (String b s)).
  now rewrite IH.
Qed.

Lemma digit_cases (d : Z) :
  is_digit d ->
  d = 0 \/ d = 1 \/ d = 2 \/ d = 3 \/ d = 4 \/ d = 5 \/ d = 6 \/ d = 7 \/ d = 8 \/ d = 9.
Proof. unfold is_digit. lia. Qed.

Lemma digit_char_facts (d : Z) :
  is_digit d ->
  digit_of (digit_char d) = Some d
  /\ is_space (digit_char d) = false
  /\ Ascii.eqb (digit_char d) "-" = false
  /\ Ascii.eqb (digit_char d) "+" = false.
Proof.
  intros H. apply digit_cases in H.
  repeat (destruct H as [-> | H]; [now vm_compute |]). subst d. now vm_compute.
Qed.

Lemma scan_digits_numeral ds : forall acc,
  Forall is_digit ds ->
  scan_digits (numeral ds) acc false = Some (numeral_value acc ds, EmptyString).
Proof.
  induction ds as [| d ds IH]; intros acc H; [reflexivity |].
  inversion H as [| ? ? Hd Hds]; subst.
  cbn [numeral scan_digits numeral_value].
  destruct (digit_char_facts d Hd) as (-> & _). now apply IH.
Qed.

Lemma count_digits_numeral ds :
  Forall is_digit ds -> count_digits (numeral ds) = Z.of_nat (length ds).
Proof.
  induction 1 as [| d ds Hd Hds IH]; [reflexivity |].
  cbn [numeral count_digits length]. destruct (digit_char_facts d Hd) as (-> & _).
  rewrite IH. lia.
Qed.

(** [int] reads a numeral of at most [max_str_digits] digits as the number
    it denotes, and refuses a longer one. *)
Lemma int_of_str_numeral ds :
  ds <> [] -> Forall is_digit ds ->
  int_of_str (numeral ds)
  = if Z.of_nat (length ds) <=? max_str_digits then Ok (numeral_value 0 ds)
    else Raise ValueError.
Proof.
  intros Hne H. destruct ds as [| d ds]; [congruence |].
  pose proof (scan_digits_numeral (d :: ds) 0 H) as S.
  pose proof (count_digits_numeral (d :: ds) H) as C.
  inversion H as [| ? ? Hd Hds]; subst.
  destruct (digit_char_facts d Hd) as (Hdig & Hsp & Hm & Hp).
  unfold int_of_str. cbn [numeral lstrip] in *. rewrite Hsp.
  unfold strip_sign. rewrite Hm, Hp, Hdig, S, C.
  rewrite Z.ltb_antisym. now destruct (_ <=? _).
Qed.

(** X7. [_timeframe_ms] raises on the empty string only, and then it is an
    IndexError: every other string has an interval. *)
Theorem _timeframe_ms_raises_only_on_empty (timeframe : string) (e : exn) :
  _timeframe_ms timeframe = Raise e <-> timeframe = EmptyString /\ e = IndexError.
Proof.
  split.
  - intros H. destruct timeframe as [| c s].
    + cbn in H. injection H as <-. now split.
    + destruct (_timeframe_ms_total (String c s)) as [ms E]; [discriminate | congruence].
  - intros [-> ->]. reflexivity.
Qed.

(** X8. A timeframe written as a decimal numeral followed by one character
    has as interval the number times 1000, 60000, 3600000 or 86400000 ms
    when the character is s, m, h or d and the numeral has at most 4300
    digits.  It has the default interval of 300000 ms when the character is
    any other, and also when the numeral has more than 4300 digits: [int]
    then raises the ValueError that line 12 catches. *)
Theorem _timeframe_ms_of_numeral (ds : list Z) (unit : ascii) :
  ds <> [] ->
  Forall is_digit ds ->
  _timeframe_ms (numeral ds ++ String unit EmptyString)
  = Ok (match unit_ms unit with
        | Some ms =>
            if Z.of_nat (length ds) <=? max_str_digits then numeral_value 0 ds * ms
            else 300000
        | None => 300000
        end).
Proof.
  intros Hne H. unfold _timeframe_ms, unit_ms.
  rewrite str_last_snoc, str_init_snoc, (int_of_str_numeral ds Hne H).
  destruct (_ <=? _).
  - repeat (destruct (Ascii.eqb unit _); [reflexivity |]). reflexivity.
  - repeat (destruct (Ascii.eqb unit _); [reflexivity |]). reflexivity.
Qed.

(** "15m" is 900000 ms, "4h" is 14400000 ms, "90x" is 300000 ms, and so is
    the numeral of 4301 ones followed by "m". *)
Lemma _timeframe_ms_of_numeral_witness :
  _timeframe_ms "15m" = Ok 900000
  /\ _timeframe_ms "4h" = Ok 14400000
  /\ _timeframe_ms "90x" = Ok 300000
  /\ _timeframe_ms (numeral (repeat 1 4301) ++ "m") = Ok 300000.
Proof.
  assert (D : forall ds, Forall is_digit ds <-> forall d, In d ds -> 0 <= d <= 9)
    by (intros ds; apply List.Forall_forall).
  split; [| split; [| split]].
  - apply (_timeframe_ms_of_numeral [1; 5] "m"); [discriminate |].
    apply D. cbn. intros d [<- | [<- | []]]; lia.
  - apply (_timeframe_ms_of_numeral [4] "h"); [discriminate |].
    apply D. cbn. intros d [<- | []]; lia.
  - apply (_timeframe_ms_of_numeral [9; 0] "x"); [discriminate |].
    apply D. cbn. intros d [<- | [<- | []]]; lia.
  - rewrite (_timeframe_ms_of_numeral (repeat 1 4301) "m").
    + vm_compute. reflexivity.
    + discriminate.
    + apply D. intros d Hd. apply repeat_spec in Hd. lia.
Defined.

(** ** Keys *)

Lemma key_of_cons (c : ascii) (symbol timeframe : string) :
  key_of (String c symbol) timeframe = String c (key_of symbol timeframe).
Proof. reflexivity. Qed.

Lemma colon_free_key (symbol timeframe : string) :
  colon_free (key_of symbol timeframe) -> False.
Proof.
  induction symbol as [| c s IH]; cbn.
  - intros [H _]. now apply H.
  - intros [_ H]. now apply IH.
Qed.

Lemma key_of_same (symbol1 timeframe1 symbol2 timeframe2 : string) :
  colon_free timeframe1 ->
  colon_free timeframe2 ->
  key_of symbol1 timeframe1 = key_of symbol2 timeframe2 ->
  symbol1 = symbol2 /\ timeframe1 = timeframe2.
Proof.
  intros H1 H2. revert symbol2.
  induction symbol1 as [| c s1 IH]; intros [| c' s2] E.
  - injection E as E. now split.
  - rewrite key_of_cons in E. injection E as Hc E.
    exfalso. apply (colon_free_key s2 timeframe2). now rewrite <- E.
  - rewrite key_of_cons in E. injection E as Hc E.
    exfalso. apply (colon_free_key s1 timeframe1). now rewrite E.
  - rewrite !key_of_cons in E. injection E as <- E.
    destruct (IH _ E) as [-> ->]. now split.
Qed.

(** X9. Two different pairs of a symbol and a timeframe have different keys
    as long as the timeframes hold no colon: the last-alert map never takes
    one evaluated pair for another. *)
Theorem key_of_injective (symbol1 timeframe1 symbol2 timeframe2 : string) :
  colon_free timeframe1 ->
  colon_free timeframe2 ->
  symbol1 <> symbol2 \/ timeframe1 <> timeframe2 ->
  key_of symbol1 timeframe1 <> key_of symbol2 timeframe2.
Proof.
  intros H1 H2 Hne E.
  destruct (key_of_same _ _ _ _ H1 H2 E) as [Hs Ht].
  destruct Hne; contradiction.
Qed.

(** A symbol that holds colons itself, as perpetual contracts do. *)
Lemma key_of_injective_witness :
  key_of "BTC/USDT:USDT" "1m" <> key_of "BTC/USDT" "1m"
  /\ key_of "BTC/USDT:USDT" "1m" <> key_of "BTC/USDT:USDT" "5m".
Proof.
  split; apply key_of_injective;
    solve [ cbn; intuition discriminate | left; discriminate | right; discriminate ].
Defined.

End MonitorInputFacts.

Section MonitorStateFacts.
Import data_quality monitor_inputs.

(** The status depends on the monitor through its settings and the entry of
    the evaluated key only. *)
Lemma step_result_frame (m1 m2 : DataQualityMonitor) (c : call) :
  same_settings m1 m2 ->
  _last_alert m1 !! c_key c = _last_alert m2 !! c_key c ->
  fst (step m1 c) = fst (step m2 c).
Proof.
  intros Hs Hl. unfold step.
  rewrite !evaluate_result, (measure_settings m1 m2) by assumption.
  fold (c_key c). unfold last_alert_of. rewrite Hl.
  destruct Hs as (-> & -> & _). reflexivity.
Qed.

Lemma step_effect (m : DataQualityMonitor) (c : call) :
  snd (step m c)
  = if alerted (fst (step m c)) then set_last_alert m (c_key c) (c_now_alert c) else m.
Proof.
  unfold step, c_key.
  destruct (evaluate_effect m (c_symbol c) (c_timeframe c) (c_ohlcv c)
              (c_now c) (c_now_alert c)) as [Ht Hf].
  destruct (alerted _); [now apply Ht | now apply Hf].
Qed.

Lemma step_other_key (m : DataQualityMonitor) (c : call) (k : string) :
  c_key c <> k -> _last_alert (snd (step m c)) !! k = _last_alert m !! k.
Proof.
  intros Hk. rewrite step_effect. destruct (alerted _); [| reflexivity].
  cbn. now rewrite lookup_insert_ne.
Qed.

Lemma set_last_alert_commute m k1 t1 k2 t2 :
  k1 <> k2 ->
  set_last_alert (set_last_alert m k1 t1) k2 t2 = set_last_alert (set_last_alert m k2 t2) k1 t1.
Proof. intros H. unfold set_last_alert. cbn. f_equal. now apply insert_insert_ne. Qed.

Lemma set_last_alert_twice m k t t' :
  set_last_alert (set_last_alert m k t) k t' = set_last_alert m k t'.
Proof. unfold set_last_alert. cbn. f_equal. apply insert_insert_eq. Qed.

(** X10. Evaluations with different keys do not see each other: what each
    returns is what it would return without the other, whichever comes first,
    and the monitor they leave is the same in both orders. *)
Theorem evaluations_of_different_keys_commute (m : DataQualityMonitor) (a b : call) :
  c_key a <> c_key b ->
  fst (step (snd (step m a)) b) = fst (step m b)
  /\ fst (step (snd (step m b)) a) = fst (step m a)
  /\ snd (step (snd (step m a)) b) = snd (step (snd (step m b)) a).
Proof.
  intros Hk.
  assert (Eb : fst (step (snd (step m a)) b) = fst (step m b)).
  { apply step_result_frame; [apply evaluate_settings | now apply step_other_key]. }
  assert (Ea : fst (step (snd (step m b)) a) = fst (step m a)).
  { apply step_result_frame; [apply evaluate_settings |]. apply step_other_key. congruence. }
  split; [exact Eb |]. split; [exact Ea |].
  rewrite (step_effect (snd (step m a)) b), (step_effect (snd (step m b)) a), Ea, Eb.
  rewrite (step_effect m a), (step_effect m b).
  destruct (alerted (fst (step m a))), (alerted (fst (step m b))); try reflexivity.
  apply set_last_alert_commute. congruence.
Qed.

(** A stale BTC/USD feed and a stale ETH/USD feed evaluated in either order:
    both alert, and the monitor ends with both entries. *)
Lemma evaluations_of_different_keys_commute_witness :
  alerted (fst (step (snd (step default (stale_call t_first))) (other_call t_second))) = true
  /\ snd (step (snd (step default (stale_call t_first))) (other_call t_second))
     = snd (step (snd (step default (other_call t_second))) (stale_call t_first)).
Proof.
  destruct (evaluations_of_different_keys_commute default (stale_call t_first)
              (other_call t_second)) as (E & _ & S).
  - vm_compute. discriminate.
  - split; [rewrite E; vm_compute; reflexivity | exact S].
Defined.

(** X11. Evaluating again with the same arguments at the same clock reads
    changes the monitor no further: whether or not the first evaluation
    recorded an alert, the second leaves the map as the first left it. *)
Theorem evaluating_again_changes_nothing (m : DataQualityMonitor) (c : call) :
  snd (step (snd (step m c)) c) = snd (step m c).
Proof.
  rewrite (step_effect (snd (step m c)) c).
  destruct (alerted (fst (step (snd (step m c)) c))) eqn:E2; [| reflexivity].
  rewrite (step_effect m c) in E2 |- *.
  destruct (alerted (fst (step m c))) eqn:E1.
  - apply set_last_alert_twice.
  - congruence.
Qed.

Lemma float_sub_zero (x : float) : float_sub x (float_round 0) = x.
Proof. destruct x as [[|] | [|] | | s m e]; reflexivity. Qed.

(** X12. A key with no entry counts as alerted at time 0: its first alert
    is returned exactly when the gap or the stale condition is met and the
    clock read by [_should_alert] is itself at least [alert_interval_sec].
    With a clock that counts from an origin less than the interval ago, a
    broken feed raises no alert. *)
Theorem first_alert_waits_for_the_clock (self : DataQualityMonitor)
  (symbol timeframe : string) (ohlcv : list (list value)) (now now_alert : float) :
  _last_alert self !! key_of symbol timeframe = None ->
  alerted (fst (evaluate self symbol timeframe ohlcv now now_alert))
  = condition_met (fst (evaluate self symbol timeframe ohlcv now now_alert))
    && float_ge now_alert (alert_interval_sec self).
Proof.
  intros H. rewrite evaluate_alerted. unfold last_alert_of.
  now rewrite H, float_sub_zero.
Qed.

(** A default monitor on a stale feed with the clock at 1000 seconds: the
    condition is met and no alert comes. *)
Lemma first_alert_waits_for_the_clock_witness :
  condition_met (fst (evaluate default "BTC/USD" "1m" candles_0_100 t_early t_early)) = true
  /\ alerted (fst (evaluate default "BTC/USD" "1m" candles_0_100 t_early t_early)) = false.
Proof.
  assert (C : condition_met
                (fst (evaluate default "BTC/USD" "1m" candles_0_100 t_early t_early)) = true)
    by (vm_compute; reflexivity).
  split; [exact C |].
  rewrite (first_alert_waits_for_the_clock default "BTC/USD" "1m" candles_0_100
             t_early t_early eq_refl), C.
  vm_compute. reflexivity.
Defined.

(** X13. The last-alert map only grows: no sequence of evaluations removes
    an entry, and a key enters the map only by being the key of one of the
    evaluations. *)
Theorem last_alert_map_only_grows (m : DataQualityMonitor) (cs : list call) (k : string) :
  (is_Some (_last_alert m !! k) -> is_Some (_last_alert (run m cs) !! k))
  /\ (is_Some (_last_alert (run m cs) !! k) ->
      is_Some (_last_alert m !! k) \/ exists c, In c cs /\ c_key c = k).
Proof.
  revert m. induction cs as [| c cs IH]; intros m; [now split; [| left] |].
  rewrite run_cons. destruct (IH (snd (step m c))) as [IH1 IH2].
  assert (G : is_Some (_last_alert m !! k) -> is_Some (_last_alert (snd (step m c)) !! k)).
  { intros H. rewrite step_effect. destruct (alerted _); [| exact H].
    cbn. destruct (decide (c_key c = k)) as [-> | Hk].
    - rewrite lookup_insert_eq. eauto.
    - now rewrite lookup_insert_ne. }
  split; [intros H; apply IH1, G, H |].
  intros H. destruct (IH2 H) as [H' | (c' & Hin & Hk)].
  - destruct (decide (c_key c = k)) as [Hk | Hk].
    + right. exists c. split; [now left | exact Hk].
    + left. now rewrite step_other_key in H'.
  - right. exists c'. split; [now right | exact Hk].
Qed.

End MonitorStateFacts.

(* ===================================================================== *)
(** * The process-wide state                                              *)
(* ===================================================================== *)

Section StateFacts.
Import state global_state.

Lemma alloc_fresh (h : heap) (o : object) :
  h !! fst (alloc h o) = None /\ snd (alloc h o) = <[fst (alloc h o) := o]> h.
Proof.
  unfold alloc. cbn. split; [| reflexivity].
  apply not_elem_of_dom. apply is_fresh.
Qed.

(** What [loss_cluster()] does when [meta] holds no tracker yet. *)
Lemma loss_cluster_creates (self : loc) (h : heap) (g : GlobalState) :
  h !! self = Some (OState g) ->
  meta g !! "loss_cluster"%string = None \/ meta g !! "loss_cluster"%string = Some ANone ->
  exists l,
    h !! l = None
    /\ l <> self
    /\ loss_cluster self h
       = Some (ARef l,
               <[self := OState (set_meta g (<["loss_cluster"%string := ARef l]> (meta g)))]>
                 (<[l := OTracker loss_cluster.default]> h)).
Proof.
  intros Hs Hm. destruct (alloc_fresh h (OTracker loss_cluster.default)) as [Hf Ha].
  exists (fst (alloc h (OTracker loss_cluster.default))).
  split; [exact Hf |]. split; [congruence |].
  unfold loss_cluster. rewrite Hs.
  destruct (alloc h (OTracker loss_cluster.default)) as [l h1] eqn:E.
  cbn [fst snd] in *. subst h1.
  destruct Hm as [-> | ->]; reflexivity.
Qed.

(** What it does when [meta] holds something that is not [None]. *)
Lemma loss_cluster_reuses (self : loc) (h : heap) (g : GlobalState) (lc : any) :
  h !! self = Some (OState g) ->
  meta g !! "loss_cluster"%string = Some lc ->
  lc <> ANone ->
  loss_cluster self h = Some (lc, h).
Proof.
  intros Hs Hm Hn. unfold loss_cluster. rewrite Hs, Hm.
  destruct lc; [contradiction | reflexivity | reflexivity | reflexivity].
Qed.

(** X14. [GlobalState.loss_cluster()] builds the tracker once.  The first
    call on a state whose [meta] has no tracker (no entry, or [None]) makes a
    default tracker at a location that held nothing and stores a reference to
    it under "loss_cluster", leaving every other object and every other field
    and [meta] key as they were; every later call returns that same
    reference and changes nothing. *)
Theorem loss_cluster_is_built_once (self : loc) (h : heap) (g : GlobalState) :
  h !! self = Some (OState g) ->
  exists lc h1,
    loss_cluster self h = Some (lc, h1)
    /\ loss_cluster self h1 = Some (lc, h1)
    /\ (meta g !! "loss_cluster"%string = None
        \/ meta g !! "loss_cluster"%string = Some ANone ->
        exists l,
          lc = ARef l
          /\ h !! l = None
          /\ h1 !! l = Some (OTracker loss_cluster.default)
          /\ h1 !! self
             = Some (OState (set_meta g (<["loss_cluster"%string := ARef l]> (meta g))))
          /\ forall l', l' <> l -> l' <> self -> h1 !! l' = h !! l')
    /\ (forall v, meta g !! "loss_cluster"%string = Some v -> v <> ANone ->
        lc = v /\ h1 = h).
Proof.
  intros Hs.
  assert (Hcreate :
    meta g !! "loss_cluster"%string = None \/ meta g !! "loss_cluster"%string = Some ANone ->
    exists lc h1,
      loss_cluster self h = Some (lc, h1)
      /\ loss_cluster self h1 = Some (lc, h1)
      /\ exists l,
          lc = ARef l
          /\ h !! l = None
          /\ h1 !! l = Some (OTracker loss_cluster.default)
          /\ h1 !! self
             = Some (OState (set_meta g (<["loss_cluster"%string := ARef l]> (meta g))))
          /\ forall l', l' <> l -> l' <> self -> h1 !! l' = h !! l').
  { intros Hm. destruct (loss_cluster_creates self h g Hs Hm) as (l & Hf & Hl & E).
    eexists _, _. split; [exact E |]. split.
    - apply loss_cluster_reuses with
        (g := set_meta g (<["loss_cluster"%string := ARef l]> (meta g))).
      + apply lookup_insert_eq.
      + cbn. apply lookup_insert_eq.
      + discriminate.
    - exists l. split; [reflexivity |]. split; [exact Hf |].
      split; [rewrite lookup_insert_ne by congruence; apply lookup_insert_eq |].
      split; [apply lookup_insert_eq |].
      intros l' H1 H2. now rewrite !lookup_insert_ne by congruence. }
  destruct (meta g !! "loss_cluster"%string) as [v |] eqn:Hm.
  - assert (Hv : v = ANone \/ v <> ANone) by (destruct v; [now left | right | right | right]; discriminate).
    destruct Hv as [-> | Hv].
    + destruct (Hcreate (or_intror eq_refl)) as (lc & h1 & E1 & E2 & Hnew).
      exists lc, h1. split; [exact E1 |]. split; [exact E2 |]. split; [intros _; exact Hnew |].
      intros v [= <-] Hv. contradiction.
    + rewrite (loss_cluster_reuses self h g v Hs Hm Hv).
      exists v, h. split; [reflexivity |]. split; [now apply loss_cluster_reuses with g |].
      split; [intros [H | H]; congruence |].
      intros v' [= <-] _. now split.
  - destruct (Hcreate (or_introl eq_refl)) as (lc & h1 & E1 & E2 & Hnew).
    exists lc, h1. split; [exact E1 |]. split; [exact E2 |]. split; [intros _; exact Hnew |].
    intros v [=].
Qed.

(** The state made by the first [get_global_state()] of the process: the
    first [loss_cluster()] makes the tracker, the second returns it again. *)
Lemma loss_cluster_is_built_once_witness :
  exists lc h1,
    loss_cluster (fst (get_global_state start)) (objects (snd (get_global_state start)))
    = Some (lc, h1)
    /\ loss_cluster (fst (get_global_state start)) h1 = Some (lc, h1)
    /\ exists l, lc = ARef l /\ h1 !! l = Some (OTracker loss_cluster.default).
Proof.
  destruct (loss_cluster_is_built_once (fst (get_global_state start))
              (objects (snd (get_global_state start))) new_state)
    as (lc & h1 & E1 & E2 & Hnew & _).
  - vm_compute. reflexivity.
  - exists lc, h1. split; [exact E1 |]. split; [exact E2 |].
    destruct Hnew as (l & -> & _ & Hl & _); [left; reflexivity |].
    now exists l.
Defined.

(** X15. A loss recorded through the reference that [loss_cluster()]
    returned is kept by the tracker of the state: the next [loss_cluster()]
    returns the same reference, the tracker it refers to has gone through the
    call, and no other object has changed. *)
Theorem losses_recorded_through_the_accessor_persist (self : loc) (h : heap)
  (g : GlobalState) (l : loc) (tr : loss_cluster.LossClusterTracker)
  (p : float) (t : option loss_cluster.datetime) (utcnow : loss_cluster.datetime) :
  h !! self = Some (OState g) ->
  meta g !! "loss_cluster"%string = Some (ARef l) ->
  h !! l = Some (OTracker tr) ->
  exists h',
    call_record_loss (ARef l) p t utcnow h = Some h'
    /\ loss_cluster self h' = Some (ARef l, h')
    /\ h' !! l = Some (OTracker (loss_cluster.record_loss tr p t utcnow))
    /\ forall l', l' <> l -> h' !! l' = h !! l'.
Proof.
  intros Hs Hm Hl.
  assert (Hne : self <> l) by congruence.
  eexists. split; [unfold call_record_loss; rewrite Hl; reflexivity |]. split.
  - apply loss_cluster_reuses with g; [| exact Hm | discriminate].
    now rewrite lookup_insert_ne by congruence.
  - split; [apply lookup_insert_eq |].
    intros l' H. now rewrite lookup_insert_ne by congruence.
Qed.

(** From the start of the process: the state and its tracker are made by
    the first calls, a loss of one unit is recorded through the accessor, and
    the accessors then give the same two objects, the tracker holding the
    loss. *)
Lemma losses_recorded_through_the_accessor_persist_witness :
  let w1 := snd (get_global_state start) in
  let self := fst (get_global_state start) in
  exists lc h1 h2,
    loss_cluster self (objects w1) = Some (lc, h1)
    /\ call_record_loss lc (float_lit (-1) 1) (Some 0) 0 h1 = Some h2
    /\ loss_cluster self h2 = Some (lc, h2)
    /\ exists l, lc = ARef l
         /\ h2 !! l = Some (OTracker (loss_cluster.record_call loss_cluster.default
                                        loss_cluster.lone_loss)).
Proof.
  intros w1 self.
  destruct (loss_cluster_creates self (objects w1) new_state) as (l & Hf & Hl & E).
  { vm_compute. reflexivity. }
  { left. reflexivity. }
  destruct (losses_recorded_through_the_accessor_persist self
              (<[self := OState (set_meta new_state
                                   (<["loss_cluster"%string := ARef l]> (meta new_state)))]>
                 (<[l := OTracker loss_cluster.default]> (objects w1)))
              (set_meta new_state (<["loss_cluster"%string := ARef l]> (meta new_state)))
              l loss_cluster.default (float_lit (-1) 1) (Some 0) 0)
    as (h2 & E1 & E2 & E3 & _).
  { apply lookup_insert_eq. }
  { cbn. apply lookup_insert_eq. }
  { rewrite lookup_insert_ne by congruence. apply lookup_insert_eq. }
  eexists _, _, h2. split; [exact E |]. split; [exact E1 |]. split; [exact E2 |].
  exists l. split; [reflexivity | exact E3].
Defined.

(** X16. [get_global_state()] builds the state once.  The first call makes
    a [GlobalState] with its defaults (no accounts, no pairs, zero totals,
    trading enabled, mode "paper", empty [meta]) at a location that held
    nothing and keeps a reference to it in [_state]; a call when [_state] is
    set returns that reference and changes nothing, so a second call always
    returns what the first returned. *)
Theorem get_global_state_is_built_once (w : world) :
  get_global_state (snd (get_global_state w)) = get_global_state w
  /\ _state (snd (get_global_state w)) = Some (fst (get_global_state w))
  /\ (_state w = None ->
      objects w !! fst (get_global_state w) = None
      /\ objects (snd (get_global_state w))
         = <[fst (get_global_state w) := OState new_state]> (objects w))
  /\ (forall l, _state w = Some l -> get_global_state w = (l, w))
  /\ (well_formed w -> well_formed (snd (get_global_state w))).
Proof.
  unfold get_global_state, well_formed.
  destruct (_state w) as [l |] eqn:E.
  - cbn [fst snd]. rewrite E. repeat split; try easy. intros l' [= <-]. reflexivity.
  - destruct (alloc_fresh (objects w) (OState new_state)) as [Hf Ha].
    destruct (alloc (objects w) (OState new_state)) as [l h1] eqn:Ea.
    cbn [fst snd _state objects] in *. subst h1.
    repeat split; try easy.
    intros _. exists new_state. apply lookup_insert_eq.
Qed.

End StateFacts.

(* ===================================================================== *)
(** * The checks made before the bot starts                               *)
(* ===================================================================== *)

Section AppFacts.
Import state app.

Lemma filter_nil_iff {A} (p : A -> bool) (l : list A) :
  List.filter p l = [] <-> forall x, In x l -> p x = false.
Proof.
  induction l as [| a l IH]; cbn; [easy |].
  destruct (p a) eqn:E.
  - split; [discriminate |]. intros H. specialize (H a (or_introl eq_refl)). congruence.
  - rewrite IH. split.
    + intros H x [<- | Hx]; [exact E | now apply H].
    + intros H x Hx. apply H. now right.
Qed.

Lemma missing_files_listed (exists_ : string -> probe) (paths : list string) :
  (forall p, In p paths -> unreadable exists_ p = false) ->
  missing_files exists_ paths = Listed (List.filter (absent exists_) paths).
Proof.
  induction paths as [| p paths IH]; intros H; [reflexivity |].
  cbn [missing_files List.filter]. rewrite IH by (intros q Hq; apply H; now right).
  specialize (H p (or_introl eq_refl)). unfold unreadable in H.
  assert (A : absent exists_ p = match exists_ p with Answers false => true | _ => false end)
    by reflexivity.
  rewrite A. destruct (exists_ p) as [[|] | msg]; [reflexivity | reflexivity | discriminate].
Qed.

Lemma missing_files_failed (exists_ : string -> probe) (pre : list string) (p : string)
  (post : list string) (msg : string) :
  (forall q, In q pre -> unreadable exists_ q = false) ->
  exists_ p = Fails msg ->
  missing_files exists_ (pre ++ p :: post) = Failed msg.
Proof.
  intros H Hp. induction pre as [| q pre IH]; cbn [app missing_files].
  - now rewrite Hp.
  - rewrite IH by (intros r Hr; apply H; now right).
    specialize (H q (or_introl eq_refl)). unfold unreadable in H.
    destruct (exists_ q); [reflexivity | discriminate].
Qed.

(** Either every path can be probed, or there is a first one that cannot. *)
Lemma first_unreadable (exists_ : string -> probe) (paths : list string) :
  (forall p, In p paths -> unreadable exists_ p = false)
  \/ (exists pre p post msg,
        paths = pre ++ p :: post /\ exists_ p = Fails msg
        /\ forall q, In q pre -> unreadable exists_ q = false).
Proof.
  induction paths as [| p paths IH]; [left; intros p [] |].
  destruct (exists_ p) as [b | msg] eqn:E.
  - destruct IH as [IH | (pre & q & post & msg & -> & Hq & Hpre)].
    + left. intros r [<- | Hr]; [unfold unreadable; now rewrite E | now apply IH].
    + right. exists (p :: pre), q, post, msg. split; [reflexivity |]. split; [exact Hq |].
      intros r [<- | Hr]; [unfold unreadable; now rewrite E | now apply Hpre].
  - right. exists [], p, paths, msg. split; [reflexivity |]. split; [exact E |]. intros q [].
Qed.

Lemma absent_false (exists_ : string -> probe) (p : string) :
  unreadable exists_ p = false -> absent exists_ p = false -> exists_ p = Answers true.
Proof. unfold unreadable, absent. destruct (exists_ p) as [[|] | msg]; easy. Qed.

(** X17. [_require_files] returns exactly when every path is probed and is
    there (so also when no path is given).  It raises FileNotFoundError
    exactly when every path can be probed and some path is not there, and the
    message then names the paths that are not there, all of them and no
    other, in the order they were given.  When a probe fails, the error of
    the first probe that does is raised, whatever is missing before or after
    it.  Nothing else is raised. *)
Theorem _require_files_checks_every_path (exists_ : string -> probe) (paths : list string) :
  (_require_files exists_ paths = Returns
   <-> forall p, In p paths -> exists_ p = Answers true)
  /\ (forall msg,
      _require_files exists_ paths = Raises (FileNotFoundError msg)
      <-> (forall p, In p paths -> unreadable exists_ p = false)
          /\ (exists p, In p paths /\ exists_ p = Answers false)
          /\ msg = ("Missing required config files: "
                    ++ join ", " (List.filter (absent exists_) paths))%string)
  /\ (forall msg,
      _require_files exists_ paths = Raises (OSError msg)
      <-> exists pre p post,
            paths = pre ++ p :: post /\ exists_ p = Fails msg
            /\ forall q, In q pre -> unreadable exists_ q = false)
  /\ (forall msg, _require_files exists_ paths <> Raises (RuntimeError msg)).
Proof.
  unfold _require_files.
  destruct (first_unreadable exists_ paths)
    as [Hall | (pre & p & post & msg0 & -> & Hp & Hpre)].
  - rewrite (missing_files_listed _ _ Hall).
    destruct (List.filter (absent exists_) paths) as [| m ms] eqn:E.
    + assert (Hthere : forall p, In p paths -> exists_ p = Answers true).
      { intros p Hp. apply absent_false; [now apply Hall |].
        exact (proj1 (filter_nil_iff _ _) E p Hp). }
      split; [easy |]. split; [| split].
      * intros msg. split; [discriminate |]. intros (_ & (p & Hp & Ha) & _).
        rewrite (Hthere p Hp) in Ha. discriminate.
      * intros msg. split; [discriminate |]. intros (pre & p & post & -> & Hp & _).
        rewrite Hthere in Hp by (apply in_or_app; right; now left). discriminate.
      * discriminate.
    + assert (Hm : In m paths /\ absent exists_ m = true).
      { apply List.filter_In. rewrite E. now left. }
      destruct Hm as [Hm Ha].
      assert (Hf : exists_ m = Answers false).
      { unfold absent in Ha. destruct (exists_ m) as [[|] | msg]; easy. }
      split; [| split; [| split]].
      * split; [discriminate |]. intros H. rewrite (H m Hm) in Hf. discriminate.
      * intros msg. split.
        -- intros [= <-]. split; [exact Hall |]. split; [now exists m | reflexivity].
        -- intros (_ & _ & ->). reflexivity.
      * intros msg. split; [discriminate |]. intros (pre & p & post & -> & Hp & _).
        assert (Hu : unreadable exists_ p = false)
          by (apply Hall, in_or_app; right; now left).
        unfold unreadable in Hu. rewrite Hp in Hu. discriminate.
      * discriminate.
  - rewrite (missing_files_failed _ _ _ _ _ Hpre Hp).
    split; [| split; [| split]].
    + split; [discriminate |]. intros H.
      rewrite H in Hp by (apply in_or_app; right; now left). discriminate.
    + intros msg. split; [discriminate |]. intros (H & _).
      assert (Hu : unreadable exists_ p = false)
        by (apply H, in_or_app; right; now left).
      unfold unreadable in Hu. rewrite Hp in Hu. discriminate.
    + intros msg. split.
      * intros [= <-]. now exists pre, p, post.
      * intros (pre' & p' & post' & E & Hp' & Hpre').
        pose proof (missing_files_failed exists_ pre p post msg0 Hpre Hp) as F.
        rewrite E, (missing_files_failed _ _ _ _ _ Hpre' Hp') in F. congruence.
    + discriminate.
Qed.

(** The files of [main] when the accounts and the agents files are not
    there: both are named.  With a path into the closed directory among the
    paths, the error of its probe is raised and the missing file before it is
    not reported. *)
Lemma _require_files_checks_every_path_witness :
  _require_files only_p_files required_files
  = Raises (FileNotFoundError
              "Missing required config files: config/accounts.yaml, config/agents.yaml")
  /\ _require_files closed_secrets ["config/accounts.yaml"; "secrets/keys.yaml"]%string
     = Raises (OSError "Permission denied").
Proof.
  split.
  - apply (proj1 (proj2 (_require_files_checks_every_path only_p_files required_files))).
    split; [| split].
    + intros p _. reflexivity.
    + exists "config/agents.yaml"%string. split; [vm_compute; tauto | reflexivity].
    + vm_compute. reflexivity.
  - apply (proj1 (proj2 (proj2 (_require_files_checks_every_path closed_secrets
                                  ["config/accounts.yaml"; "secrets/keys.yaml"]%string)))).
    exists ["config/accounts.yaml"%string], "secrets/keys.yaml"%string, [].
    split; [reflexivity |]. split; [reflexivity |].
    intros q [<- | []]. reflexivity.
Defined.

(** ** Live mode *)

Lemma unset_false (env : environ) (k : string) :
  unset env k = false <-> exists v, env !! k = Some v /\ v <> EmptyString.
Proof.
  unfold unset. destruct (env !! k) as [v |].
  - destruct (String.eqb_spec v EmptyString) as [-> | Hv].
    + split; [discriminate | intros (v & [= <-] & H); contradiction].
    + split; [intros _; now exists v | reflexivity].
  - split; [discriminate | intros (v & H & _); discriminate].
Qed.

Lemma unacknowledged_false (env : environ) :
  unacknowledged env = false <-> env !! "I_UNDERSTAND_LIVE_TRADING"%string = Some "1"%string.
Proof.
  unfold unacknowledged. destruct (env !! _) as [v |].
  - destruct (String.eqb_spec v "1") as [-> | Hv]; cbn.
    + easy.
    + split; [discriminate | intros [= ->]; contradiction].
  - easy.
Qed.

(** X18. [_validate_live_env] lets the start go on in two cases only: the
    mode is not "live"; or the mode is "live", each of the seven credentials
    is set to a string that is not empty, and I_UNDERSTAND_LIVE_TRADING is
    exactly "1".  In every other case it raises RuntimeError, and a missing
    credential is reported whatever the acknowledgement says. *)
Theorem _validate_live_env_lets_through (env : environ) (mode : string) :
  (_validate_live_env env mode = Returns
   <-> mode <> "live"%string
       \/ ((forall k, In k required -> exists v, env !! k = Some v /\ v <> EmptyString)
           /\ env !! "I_UNDERSTAND_LIVE_TRADING"%string = Some "1"%string))
  /\ (mode = "live"%string ->
      forall k, In k required -> unset env k = true ->
      _validate_live_env env mode
      = Raises (RuntimeError
                  (missing_message ++ join ", " (sorted (List.filter (unset env) required)))%string))
  /\ (forall e, _validate_live_env env mode = Raises e -> exists msg, e = RuntimeError msg).
Proof.
  unfold _validate_live_env.
  destruct (String.eqb_spec mode "live") as [-> | Hm]; cbn [negb].
  - destruct (List.filter (unset env) required) as [| m ms] eqn:E.
    + assert (Hall : forall k, In k required -> exists v, env !! k = Some v /\ v <> EmptyString).
      { intros k Hk. apply unset_false. exact (proj1 (filter_nil_iff _ _) E k Hk). }
      split; [| split].
      * destruct (unacknowledged env) eqn:Ha.
        -- split; [discriminate |]. intros [H | [_ H]]; [congruence |].
           apply unacknowledged_false in H. congruence.
        -- split; [| reflexivity]. intros _. right. split; [exact Hall |].
           now apply unacknowledged_false.
      * intros _ k Hk Hu. destruct (Hall k Hk) as (v & Hv & Hne).
        assert (unset env k = false) by (apply unset_false; eauto). congruence.
      * intros e. destruct (unacknowledged env); [| discriminate].
        intros [= <-]. eauto.
    + split; [| split].
      * split; [discriminate |]. intros [H | [H _]]; [congruence |]. exfalso.
        assert (Hin : In m (List.filter (unset env) required)) by (rewrite E; now left).
        apply List.filter_In in Hin as [Hin Hu].
        apply H in Hin. apply unset_false in Hin. congruence.
      * intros _ k Hk Hu. reflexivity.
      * intros e [= <-]. eauto.
  - split; [| split].
    + split; [intros _; now left | reflexivity].
    + intros H. congruence.
    + discriminate.
Qed.

(** Live mode with every credential and the acknowledgement starts; without
    the Binance secret it does not; paper mode starts with nothing set. *)
Lemma _validate_live_env_lets_through_witness :
  _validate_live_env live_environ "live" = Returns
  /\ _validate_live_env (delete "BINANCE_API_SECRET"%string live_environ) "live"
     = Raises (RuntimeError
                 "Live mode requested but these env vars are missing: BINANCE_API_SECRET")
  /\ _validate_live_env ∅ "paper" = Returns.
Proof.
  split; [| split].
  - apply (proj1 (_validate_live_env_lets_through live_environ "live")). right. split.
    + intros k Hk. exists "secret"%string. split; [| discriminate].
      cbn in Hk. repeat (destruct Hk as [<- | Hk]; [vm_compute; reflexivity |]). destruct Hk.
    + vm_compute. reflexivity.
  - rewrite (proj1 (proj2 (_validate_live_env_lets_through
                             (delete "BINANCE_API_SECRET"%string live_environ) "live"))
               eq_refl "BINANCE_API_SECRET"%string).
    + vm_compute. reflexivity.
    + vm_compute. tauto.
    + vm_compute. reflexivity.
  - apply (proj1 (_validate_live_env_lets_through ∅ "paper")). left. discriminate.
Defined.

Lemma sorted_required (p : string -> bool) :
  sorted (List.filter p required) = List.filter p required_in_order.
Proof.
  unfold required, required_in_order. cbn [List.filter].
  destruct (p "KRAKEN_API_KEY"%string), (p "KRAKEN_API_SECRET"%string),
    (p "BINANCE_API_KEY"%string), (p "BINANCE_API_SECRET"%string),
    (p "COINBASE_API_KEY"%string), (p "COINBASE_API_SECRET"%string),
    (p "COINBASE_API_PASSPHRASE"%string); vm_compute; reflexivity.
Qed.

(** X19. In live mode with a credential unset or empty, the message of the
    RuntimeError lists the credentials that are unset or empty, all of them
    and no other, in the order of their names, not in the order in which the
    code checks them. *)
Theorem _validate_live_env_names_what_is_missing (env : environ) (k : string) :
  In k required ->
  unset env k = true ->
  _validate_live_env env "live"
  = Raises (RuntimeError
              (missing_message ++ join ", " (List.filter (unset env) required_in_order))%string).
Proof.
  intros Hk Hu. unfold _validate_live_env. cbn [String.eqb Ascii.eqb Bool.eqb negb].
  assert (Hin : In k (List.filter (unset env) required))
    by (apply List.filter_In; now split).
  rewrite <- sorted_required.
  destruct (List.filter (unset env) required) as [| m ms]; [destruct Hin | reflexivity].
Qed.

(** Kraken's key empty and Binance's secret unset: Binance is named first. *)
Lemma _validate_live_env_names_what_is_missing_witness :
  _validate_live_env
    (<["KRAKEN_API_KEY"%string := EmptyString]>
       (delete "BINANCE_API_SECRET"%string live_environ)) "live"
  = Raises (RuntimeError
              "Live mode requested but these env vars are missing: BINANCE_API_SECRET, KRAKEN_API_KEY").
Proof.
  rewrite (_validate_live_env_names_what_is_missing _ "KRAKEN_API_KEY"%string).
  - vm_compute. reflexivity.
  - vm_compute. tauto.
  - vm_compute. reflexivity.
Defined.

(** ** Accounts from the configuration *)

Lemma load_account_effect accts n cfg accts' :
  load_account accts n cfg = Ok accts' ->
  exists eq bal dd rm,
    get_float cfg "equity" f_0_0 = Ok eq
    /\ get_float cfg "balance" eq = Ok bal
    /\ get_float cfg "max_drawdown_pct" f_m20_0 = Ok dd
    /\ get_float cfg "risk_multiplier" f_1_0 = Ok rm
    /\ accts' = match accts !! n with
                | Some _ => accts
                | None => <[n := new_account n eq bal dd rm]> accts
                end.
Proof.
  unfold load_account, bind.
  destruct (get_float cfg "equity" f_0_0) as [eq |] eqn:E1; [| discriminate].
  destruct (get_float cfg "balance" eq) as [bal |] eqn:E2; [| discriminate].
  destruct (get_float cfg "max_drawdown_pct" f_m20_0) as [dd |] eqn:E3; [| discriminate].
  destruct (get_float cfg "risk_multiplier" f_1_0) as [rm |] eqn:E4; [| discriminate].
  intros [= <-]. exists eq, bal, dd, rm. repeat split; assumption.
Qed.

Lemma load_account_keeps accts n cfg accts' k a :
  load_account accts n cfg = Ok accts' -> accts !! k = Some a -> accts' !! k = Some a.
Proof.
  intros H Hk. apply load_account_effect in H as (eq & bal & dd & rm & _ & _ & _ & _ & ->).
  destruct (accts !! n) eqn:En; [exact Hk |].
  rewrite lookup_insert_ne; [exact Hk | congruence].
Qed.

Lemma load_accounts_keeps items : forall accts k a,
  accts !! k = Some a -> snd (load_accounts accts items) !! k = Some a.
Proof.
  induction items as [| [n cfg] items IH]; intros accts k a Hk; [exact Hk |].
  cbn [load_accounts]. destruct (load_account accts n cfg) as [accts' | e] eqn:E.
  - apply IH. now apply load_account_keeps with accts n cfg.
  - exact Hk.
Qed.

(** X20. Loading the accounts of the configuration never overwrites an
    account that the state already holds, whatever the configuration says
    about it.  When the loop ends without raising, every configured name has
    an account, and a name that had none gets one with the configured
    numbers, where a missing equity is 0.0, a missing balance is the equity,
    a missing max_drawdown_pct is -20.0 and a missing risk_multiplier is 1.0,
    no position and no realized or unrealized profit. *)
Theorem load_accounts_never_overwrites (accts : gmap string AccountState)
  (items : list (string * gmap string value)) :
  (forall n a, accts !! n = Some a -> snd (load_accounts accts items) !! n = Some a)
  /\ (fst (load_accounts accts items) = Ok tt ->
      forall n cfg, In (n, cfg) items ->
      (exists a, snd (load_accounts accts items) !! n = Some a)
      /\ (accts !! n = None ->
          (forall cfg', In (n, cfg') items -> cfg' = cfg) ->
          exists eq bal dd rm,
            get_float cfg "equity" f_0_0 = Ok eq
            /\ get_float cfg "balance" eq = Ok bal
            /\ get_float cfg "max_drawdown_pct" f_m20_0 = Ok dd
            /\ get_float cfg "risk_multiplier" f_1_0 = Ok rm
            /\ snd (load_accounts accts items) !! n
               = Some (new_account n eq bal dd rm))).
Proof.
  split; [intros n a; apply load_accounts_keeps |].
  revert accts. induction items as [| [n0 cfg0] items IH]; intros accts Hok n cfg Hin;
    [destruct Hin |].
  cbn [load_accounts] in *.
  destruct (load_account accts n0 cfg0) as [accts' | e] eqn:E; [| discriminate].
  pose proof (load_account_effect _ _ _ _ E) as (eq & bal & dd & rm & E1 & E2 & E3 & E4 & Ea).
  destruct (decide (n = n0)) as [-> | Hn].
  - assert (Hpresent : exists a, accts' !! n0 = Some a).
    { rewrite Ea. destruct (accts !! n0) eqn:En; [eauto |]. rewrite lookup_insert_eq. eauto. }
    split.
    + destruct Hpresent as [a Ha]. exists a. now apply load_accounts_keeps.
    + intros Hnone Huniq.
      assert (cfg0 = cfg) as -> by (apply Huniq; now left).
      exists eq, bal, dd, rm. repeat (split; [assumption |]).
      apply load_accounts_keeps. rewrite Ea, Hnone. apply lookup_insert_eq.
  - destruct Hin as [[= -> ->] | Hin]; [contradiction |].
    destruct (IH accts' Hok n cfg Hin) as [Hex Hnew]. split; [exact Hex |].
    intros Hnone Huniq. apply Hnew.
    + rewrite Ea. destruct (accts !! n0); [exact Hnone |].
      rewrite lookup_insert_ne; [exact Hnone | congruence].
    + intros cfg' H'. apply Huniq. now right.
Qed.

(** "main" keeps its equity of 500; "alt" is made with equity and balance
    250.0 and the default limits. *)
Lemma load_accounts_never_overwrites_witness :
  fst (load_accounts held_accounts configured_accounts) = Ok tt
  /\ snd (load_accounts held_accounts configured_accounts) !! "main"%string
     = held_accounts !! "main"%string
  /\ snd (load_accounts held_accounts configured_accounts) !! "alt"%string
     = Some (new_account "alt" (float_lit 250 1) (float_lit 250 1) f_m20_0 f_1_0).
Proof.
  assert (Hok : fst (load_accounts held_accounts configured_accounts) = Ok tt)
    by (vm_compute; reflexivity).
  destruct (load_accounts_never_overwrites held_accounts configured_accounts) as [Hkeep Hnew].
  split; [exact Hok |]. split.
  - apply Hkeep. vm_compute. reflexivity.
  - destruct (Hnew Hok "alt"%string {[ "equity"%string := VInt 250 ]}) as [_ H].
    { right. now left. }
    destruct H as (eq & bal & dd & rm & E1 & E2 & E3 & E4 & E).
    { vm_compute. reflexivity. }
    { intros cfg' [[=] | [[= <-] | []]]. reflexivity. }
    rewrite E.
    vm_compute in E1. injection E1 as <-.
    vm_compute in E2. injection E2 as <-.
    vm_compute in E3. injection E3 as <-.
    vm_compute in E4. injection E4 as <-.
    vm_compute. reflexivity.
Defined.

End AppFacts.

Section StatusShapeFacts.
Import data_quality.

(** X21. A status that [evaluate] returns is made of the inputs and of
    nothing else.  When an evaluation of the rows [pre ++ [r1; r2]] returns a
    dict, the monitor is enabled, the five conversions of lines 71 to 78 have
    succeeded, and the dict has the keys last_ts, gap_ms, gap, stale and
    alert, in this order and no other: "last_ts" is [int] of the first field
    of the last row, "gap_ms" is that minus [int] of the first field of the
    row before, "gap" holds the field [gap_detected], the test of line 76 on
    that difference, "stale" the test of line 78, and "alert" is true exactly
    when one of the two tests holds and the test of line 62 does. *)
Theorem evaluate_status_shape (self : DataQualityMonitor) (symbol timeframe : string)
  (pre : list (list value)) (r1 r2 : list value) (now now_alert : float) (d : dict) :
  fst (evaluate self symbol timeframe (pre ++ [r1; r2]) now now_alert) = Ok (Some d) ->
  exists ms t1 t2 f now_ms,
    enabled self = true
    /\ _timeframe_ms timeframe = Ok ms
    /\ (v <- index0 r2 ;; int_of_value v) = Ok t2
    /\ (v <- index0 r1 ;; int_of_value v) = Ok t1
    /\ float_of_int ms = Ok f
    /\ int_of_float (float_mul now (float_round 1000)) = Ok now_ms
    /\ d = [ ("last_ts"%string, VInt t2);
             ("gap_ms"%string, VInt (t2 - t1));
             ("gap"%string,
              VBool (int_gt_float (t2 - t1) (float_mul f (gap_multiplier self))));
             ("stale"%string,
              VBool (int_gt_float (now_ms - t2) (float_mul f (stale_multiplier self))));
             ("alert"%string,
              VBool ((int_gt_float (t2 - t1) (float_mul f (gap_multiplier self))
                      || int_gt_float (now_ms - t2) (float_mul f (stale_multiplier self)))
                     && float_ge
                          (float_sub now_alert (last_alert_of self (key_of symbol timeframe)))
                          (alert_interval_sec self))) ].
Proof.
  intros H.
  assert (En : enabled self = true).
  { destruct (enabled self) eqn:En; [reflexivity |].
    assert (N : fst (evaluate self symbol timeframe (pre ++ [r1; r2]) now now_alert) = Ok None)
      by (apply evaluate_none_iff; now left).
    congruence. }
  rewrite (evaluate_two_rows _ _ _ _ _ _ _ _ En) in H.
  destruct (measure self timeframe [r1; r2] now) as [st | e] eqn:M; [| discriminate].
  apply measure_ok in M as (ms & t1 & t2 & f & now_ms & Ems & E2 & E1 & Ef & Enow & ->).
  exists ms, t1, t2, f, now_ms.
  repeat (split; [assumption |]).
  injection H as <-. reflexivity.
Qed.

(** The status of the stale BTC/USD feed at the first instant. *)
Lemma evaluate_status_shape_witness :
  fst (evaluate default "BTC/USD" "1m"
         ([] ++ [hd [] candles_0_100; hd [] (tl candles_0_100)]) t_first t_first)
  = Ok (Some [ ("last_ts"%string, VInt 100); ("gap_ms"%string, VInt 100);
               ("gap"%string, VBool false); ("stale"%string, VBool true);
               ("alert"%string, VBool true) ]).
Proof.
  destruct (fst (evaluate default "BTC/USD" "1m"
                   ([] ++ [hd [] candles_0_100; hd [] (tl candles_0_100)]) t_first t_first))
    as [[d |] | e] eqn:E; try (vm_compute in E; discriminate).
  destruct (evaluate_status_shape default "BTC/USD" "1m" [] _ _ t_first t_first d E)
    as (ms & t1 & t2 & f & now_ms & _ & Ems & E2 & E1 & Ef & Enow & ->).
  vm_compute in Ems. injection Ems as <-.
  vm_compute in E2. injection E2 as <-.
  vm_compute in E1. injection E1 as <-.
  vm_compute in Ef. injection Ef as <-.
  vm_compute in Enow. injection Enow as <-.
  vm_compute. reflexivity.
Defined.

End StatusShapeFacts.

(* ===================================================================== *)
(** * Calls that are repeated                                             *)
(* ===================================================================== *)

Section RepeatedCallFacts.
Import loss_cluster loss_history data_quality.







End RepeatedCallFacts.
